(** * tensordict.nn.distributions.continuous

    A shallow embedding of [NormalParamWrapper], [NormalParamExtractor],
    [AddStateIndependentNormalScale] and [Delta] from
    [tensordict/nn/distributions/continuous.py], and the properties of
    their shape handling, error paths and degenerate sampling.

    Python exceptions are values of [exn] carried by [result]; a tensor is
    its shape together with the element found at each index; the scalar
    arithmetic of the tensor library is an interface ([Scalar]), with
    the extended reals as one instance. *)

From Stdlib Require Import List ZArith Lia Bool String Ascii DecimalString.
From Stdlib Require Import Reals Lra.
Import ListNotations.

Set Implicit Arguments.

Open Scope string_scope.
Open Scope nat_scope.
Open Scope list_scope.

(** ** Exceptions and fallible computations *)

Module Py.

Inductive exn : Type :=
| RuntimeError (msg : string)
| ValueError (msg : string)
| IndexError (msg : string)
| UnknownMapping (msg : string).

Inductive result (T : Type) : Type :=
| Ok (v : T)
| Err (e : exn).

Arguments Ok {T} v.
Arguments Err {T} e.

Definition bind {T U : Type} (c : result T) (k : T -> result U) : result U :=
  match c with
  | Ok v => k v
  | Err e => Err e
  end.

Definition is_ok {T : Type} (c : result T) : bool :=
  match c with Ok _ => true | Err _ => false end.

(** [l[start:]] and [l[:stop]]: a negative bound counts from the end, and
    bounds are clipped to the list. *)
Definition clip (len : nat) (i : Z) : nat :=
  let j := if (i <? 0)%Z then (i + Z.of_nat len)%Z else i in
  Z.to_nat (Z.min (Z.max j 0) (Z.of_nat len)).

Definition slice_from {T : Type} (l : list T) (start : Z) : list T :=
  skipn (clip (List.length l) start) l.

Definition slice_to {T : Type} (l : list T) (stop : Z) : list T :=
  firstn (clip (List.length l) stop) l.

(** [range(-1, -n - 1, -1)], that is [-1, -2, ..., -n]. *)
Definition range_down (n : nat) : list Z :=
  map (fun k => (- Z.of_nat (S k))%Z) (seq 0 n).

(** [for x in xs: acc = body(acc, x)] where the body may raise. *)
Fixpoint for_each {T X : Type} (body : T -> X -> result T) (xs : list X)
  (acc : T) : result T :=
  match xs with
  | [] => Ok acc
  | x :: rest => bind (body acc x) (for_each body rest)
  end.

End Py.

Import Py.

Notation "x <- c ;; k" := (bind c (fun x => k))
  (at level 61, c at next level, right associativity).

(** ** Shapes *)

Definition Size := list nat.

Definition size_eqb (s1 s2 : Size) : bool :=
  if list_eq_dec Nat.eq_dec s1 s2 then true else false.

Definition string_of_nat (n : nat) : string :=
  NilEmpty.string_of_uint (Nat.to_uint n).

Fixpoint join_nats (l : list nat) : string :=
  match l with
  | [] => ""
  | [n] => string_of_nat n
  | n :: rest => (string_of_nat n ++ ", " ++ join_nats rest)%string
  end.

(** [str(torch.Size(...))]. *)
Definition repr_size (s : Size) : string :=
  ("torch.Size([" ++ join_nats s ++ "])")%string.

(** An index is in range for a shape when it has one coordinate per
    dimension, each below that dimension's size. *)
Definition in_range (idx : list nat) (s : Size) : Prop :=
  Forall2 lt idx s.

Fixpoint in_rangeb (idx : list nat) (s : Size) : bool :=
  match idx, s with
  | [], [] => true
  | i :: idx', d :: s' => (i <? d) && in_rangeb idx' s'
  | _, _ => false
  end.

(** All indices of a shape, in row-major order. *)
Fixpoint indices (s : Size) : list (list nat) :=
  match s with
  | [] => [[]]
  | d :: s' => flat_map (fun i => map (cons i) (indices s')) (seq 0 d)
  end.

(** ** The scalar interface of the tensor library *)

Class Scalar (A : Type) : Type := {
  szero : A;
  pinf : A;
  ninf : A;
  sadd : A -> A -> A;
  ssub : A -> A -> A;
  smul : A -> A -> A;
  sabs : A -> A;
  slt : A -> A -> bool;
  sle : A -> A -> bool;
  sclamp_min : A -> A -> A;
  is_nan : A -> bool;
  is_finite : A -> bool
}.

Class ScalarLaws (A : Type) `{Scalar A} : Prop := {
  pinf_not_finite : is_finite pinf = false;
  ninf_not_finite : is_finite ninf = false;
  finite_not_nan : forall x, is_finite x = true -> is_nan x = false;
  clamp_min_lower : forall x lb,
    is_nan x = false -> is_nan lb = false -> sle lb (sclamp_min x lb) = true
}.

Arguments ScalarLaws A {_}.

(** ** Tensors *)

Record tensor (A : Type) : Type := Tensor {
  shape : Size;
  get : list nat -> A
}.

Arguments Tensor {A} shape get.

(** Two tensors are elementwise equal when they have the same shape and
    the same element at every index in range. *)
Definition teq {A : Type} (t1 t2 : tensor A) : Prop :=
  shape t1 = shape t2 /\
  forall idx, in_range idx (shape t1) -> get t1 idx = get t2 idx.

Definition to_list {A : Type} (t : tensor A) : list A :=
  map (get t) (indices (shape t)).

Definition tmap {A B : Type} (f : A -> B) (t : tensor A) : tensor B :=
  Tensor (shape t) (fun idx => f (get t idx)).

(** Pointwise combination of two tensors of one shape. *)
Definition tzip {A B C : Type} (f : A -> B -> C) (t1 : tensor A)
  (t2 : tensor B) : tensor C :=
  Tensor (shape t1) (fun idx => f (get t1 idx) (get t2 idx)).

(** [torch.full(size, fill_value)]. *)
Definition full {A : Type} (size : Size) (fill_value : A) : tensor A :=
  Tensor size (fun _ => fill_value).

(** Build a tensor from its entries listed in row-major order. *)
Fixpoint offset (s : Size) (idx : list nat) : nat :=
  match s, idx with
  | d :: s', i :: idx' => i * fold_right Nat.mul 1 s' + offset s' idx'
  | _, _ => 0
  end.

Definition of_list {A : Type} (s : Size) (dflt : A) (l : list A) : tensor A :=
  Tensor s (fun idx => nth (offset s idx) l dflt).

(** ** The tensor operations the module calls

    Each definition follows the documented behaviour of the PyTorch
    operation of the same name, restricted to the way this module calls
    it. *)

Module Torch.

Section Views.
Context {A : Type}.

(** Apply [f] to the last coordinate of an index. *)
Fixpoint map_last (f : nat -> nat) (idx : list nat) : list nat :=
  match idx with
  | [] => []
  | [j] => [f j]
  | i :: rest => i :: map_last f rest
  end.

(** [t.narrow(-1, start, length)]: entries [start .. start + length - 1]
    along the last dimension. *)
Definition narrow_last (t : tensor A) (start length : nat) : tensor A :=
  Tensor (removelast (shape t) ++ [length])
         (fun idx => get t (map_last (fun j => start + j) idx)).

(** [t.chunk(chunks, -1)].  The pieces have size
    [ceil(dim_size / chunks)] except the last, which takes what is left,
    so fewer than [chunks] pieces may come back; a dimension of size 0
    is cut into [chunks] empty pieces. *)
Definition chunk_last (t : tensor A) (chunks : nat)
  : result (list (tensor A)) :=
  match rev (shape t) with
  | [] => Err (RuntimeError "chunk expects at least a 1-dimensional tensor")
  | dim_size :: _ =>
    if chunks =? 0
    then Err (RuntimeError "chunk expects `chunks` to be greater than 0")
    else
      let split_size := (dim_size + chunks - 1) / chunks in
      if (split_size =? 0) && (dim_size =? 0)
      then Ok (repeat (narrow_last t 0 0) chunks)
      else
        let num_splits :=
          Nat.max ((dim_size + split_size - 1) / split_size) 1 in
        let last_split_size :=
          split_size - (split_size * num_splits - dim_size) in
        Ok (map (fun i =>
                   narrow_last t (i * split_size)
                     (if i <? num_splits - 1 then split_size
                      else last_split_size))
                (seq 0 num_splits))
  end.

(** [t.expand(sizes)]: [sizes] is aligned with the shape of [t] on the
    right; a dimension of [t] keeps its size or, when it has size 1, is
    repeated; leading dimensions are new. *)
Definition expand (t : tensor A) (sizes : Size) : result (tensor A) :=
  let lead := List.length sizes - List.length (shape t) in
  if List.length sizes <? List.length (shape t)
  then Err (RuntimeError
    "expand: the number of sizes provided must be greater or equal to the number of dimensions in the tensor")
  else if forallb (fun ds => (fst ds =? snd ds) || (fst ds =? 1))
                  (combine (shape t) (skipn lead sizes))
  then Ok (Tensor sizes
             (fun idx =>
                get t (map (fun di => if fst di =? 1 then 0 else snd di)
                           (combine (shape t) (skipn lead idx)))))
  else Err (RuntimeError
    "The expanded size of the tensor must match the existing size at non-singleton dimension").

(** [t.expand_as(other)]. *)
Definition expand_as {B : Type} (t : tensor A) (other : tensor B)
  : result (tensor A) :=
  expand t (shape other).

(** [out.masked_fill_(mask, value)]. *)
Definition masked_fill (out : tensor A) (mask : tensor bool) (value : A)
  : tensor A :=
  Tensor (shape out)
         (fun idx => if get mask idx then value else get out idx).

End Views.

(** A dimension argument [dim] of a tensor with [ndim] dimensions; a
    0-dimensional tensor accepts [-1] and [0]. *)
Definition wrap_dim (ndim : nat) (dim : Z) : result nat :=
  let n := Z.of_nat (Nat.max ndim 1) in
  if ((dim <? - n) || (n <=? dim))%Z
  then Err (IndexError "Dimension out of range")
  else Ok (Z.to_nat (if (dim <? 0)%Z then dim + n else dim)%Z).

(** [t.all(dim)]: logical AND along [dim], which is removed from the
    shape. *)
Definition all_dim (t : tensor bool) (dim : Z) : result (tensor bool) :=
  d <- wrap_dim (List.length (shape t)) dim ;;
  match shape t with
  | [] => Ok t
  | _ =>
    Ok (Tensor (firstn d (shape t) ++ skipn (S d) (shape t))
          (fun idx =>
             forallb (fun j => get t (firstn d idx ++ j :: skipn d idx))
                     (seq 0 (nth d (shape t) 0))))
  end.

(** [~t] on a boolean tensor. *)
Definition logical_not (t : tensor bool) : tensor bool := tmap negb t.

Section Arith.
Context {A : Type} `{Scalar A}.

(** [t.clamp_min(lb)]. *)
Definition clamp_min (t : tensor A) (lb : A) : tensor A :=
  tmap (fun x => sclamp_min x lb) t.

(** [torch.zeros_like(t, dtype=...)] with a floating dtype. *)
Definition zeros_like {B : Type} (t : tensor B) : tensor A :=
  Tensor (shape t) (fun _ => szero).

Definition abs (t : tensor A) : tensor A := tmap sabs t.
Definition sub (t1 t2 : tensor A) : tensor A := tzip ssub t1 t2.
Definition lt (t1 t2 : tensor A) : tensor bool := tzip slt t1 t2.
(** [c * t] and [c + t] for a Python number [c]. *)
Definition rmul (c : A) (t : tensor A) : tensor A := tmap (smul c) t.
Definition radd (c : A) (t : tensor A) : tensor A := tmap (sadd c) t.

End Arith.

End Torch.

(** [a, b = xs]. *)
Definition unpack2 {T : Type} (xs : list T) : result (T * T) :=
  match xs with
  | [a; b] => Ok (a, b)
  | _ =>
    if List.length xs <? 2
    then Err (ValueError
           ("not enough values to unpack (expected 2, got "
              ++ string_of_nat (List.length xs) ++ ")")%string)
    else Err (ValueError "too many values to unpack (expected 2)")
  end.

(** [x, *rest = xs]. *)
Definition unpack_head {T : Type} (xs : list T) : result (T * list T) :=
  match xs with
  | x :: rest => Ok (x, rest)
  | [] => Err (ValueError
                 "not enough values to unpack (expected at least 1, got 0)")
  end.

(** ** The classes of continuous.py *)

(** *** [NormalParamWrapper] *)

Module NormalParamWrapper.

Inductive t : Type := instance.

(** The message of the [RuntimeError] raised by [__init__]. *)
Definition deprecation_message : string :=
  "NormalParamWrapper has been deprecated in favor of `tensordict.nn.NormalParamExtractor`. Use this class instead.".

(** [__init__(self, operator, scale_mapping="biased_softplus_1.0",
    scale_lb=1e-4)]: the body is the [raise] alone. *)
Definition __init__ {Operator Number : Type} (operator : Operator)
  (scale_mapping : option string) (scale_lb : option Number) : result t :=
  Err (RuntimeError deprecation_message).

End NormalParamWrapper.

(** *** [NormalParamExtractor] *)

Module NormalParamExtractor.

Section Class.
Context {A : Type} `{Scalar A}.
(** [tensordict.nn.utils.mappings], which resolves a mapping name to a
    function applied to every entry of a tensor, or raises. *)
Variable mappings : string -> result (A -> A).

(** The attributes set by [__init__]: the resolved mapping and the lower
    bound. *)
Record t : Type := Build {
  scale_mapping : A -> A;
  scale_lb : A
}.

(** [__init__(self, scale_mapping="biased_softplus_1.0", scale_lb=1e-4)]:
    the name is resolved here. *)
Definition __init__ (scale_mapping : option string) (scale_lb : A)
  : result t :=
  let scale_mapping :=
    match scale_mapping with
    | None => "biased_softplus_1.0"
    | Some s => s
    end in
  f <- mappings scale_mapping ;;
  Ok (Build f scale_lb).

(** [forward(self, *tensors)]. *)
Definition forward (self : t) (tensors : list (tensor A))
  : result (list (tensor A)) :=
  p <- unpack_head tensors ;;
  let (tensor, others) := p in
  chunks <- Torch.chunk_last tensor 2 ;;
  q <- unpack2 chunks ;;
  let (loc, scale) := q in
  let scale :=
    Torch.clamp_min (tmap (scale_mapping self) scale) (scale_lb self) in
  Ok (loc :: scale :: others).

End Class.

End NormalParamExtractor.

(** *** [AddStateIndependentNormalScale] *)

Module AddStateIndependentNormalScale.

(** The [scale_shape] argument when it is given: an [int] or a sequence of
    sizes. *)
Inductive shape_arg : Type :=
| an_int (n : nat)
| a_tuple (s : Size).

Section Class.
Context {A : Type} `{Scalar A}.
Variable mappings : string -> result (A -> A).

(** The scale is registered as a [torch.nn.Parameter] or as a
    [torch.nn.Buffer]. *)
Inductive registered : Type :=
| as_parameter (data : tensor A)
| as_buffer (data : tensor A).

Definition data_of (r : registered) : tensor A :=
  match r with as_parameter d => d | as_buffer d => d end.

(** The attributes set by [__init__]; the mapping is kept by name. *)
Record t : Type := Build {
  scale_lb : A;
  scale_shape : Size;
  scale_mapping : string;
  state_independent_scale : registered
}.

(** [__init__(self, scale_shape=None, *, scale_mapping="exp",
    scale_lb=1e-4, device=None, make_param=True, init_value=0.0)].  The
    device and the dtype of the scale play no part in what follows. *)
Definition __init__ (scale_shape : option shape_arg)
  (scale_mapping : option string) (scale_lb : A) (make_param : bool)
  (init_value : A) : result t :=
  let scale_mapping :=
    match scale_mapping with None => "exp" | Some s => s end in
  let scale_shape :=
    match scale_shape with
    | None => []
    | Some (an_int n) => [n]
    | Some (a_tuple s) => s
    end in
  Ok (Build scale_lb scale_shape scale_mapping
        (if make_param
         then as_parameter (full scale_shape init_value)
         else as_buffer (full scale_shape init_value))).

(** The message of the [RuntimeError] raised by [forward]. *)
Definition mismatch_message (self : t) (loc : tensor A) : string :=
  ("Last dimensions of loc ("
     ++ repr_size (slice_from (shape loc)
                     (- Z.of_nat (List.length (scale_shape self))))
     ++ ") do not match the number of dimensions in scale ("
     ++ repr_size (shape (data_of (state_independent_scale self)))
     ++ ")")%string.

(** [forward(self, loc, *others)]: the shape check, then the scale is
    expanded, mapped by the mapping resolved here, and clamped. *)
Definition forward (self : t) (loc : tensor A) (others : list (tensor A))
  : result (list (tensor A)) :=
  if negb (size_eqb (scale_shape self)
             (slice_from (shape loc)
                (- Z.of_nat (List.length (scale_shape self)))))
  then Err (RuntimeError (mismatch_message self loc))
  else
    scale <- Torch.expand_as (data_of (state_independent_scale self)) loc ;;
    f <- mappings (scale_mapping self) ;;
    let scale := Torch.clamp_min (tmap f scale) (scale_lb self) in
    Ok (loc :: scale :: others).

End Class.

End AddStateIndependentNormalScale.

(** *** [Delta] *)

Module Delta.

Section Class.
Context {A : Type} `{Scalar A}.

(** The parameter and tolerances, and the two shapes kept by
    [torch.distributions.Distribution]. *)
Record t : Type := Build {
  param : tensor A;
  atol : A;
  rtol : A;
  batch_shape : Size;
  event_shape : Size
}.

(** [update(self, param)]: [self.param = param]. *)
Definition update (self : t) (new_param : tensor A) : t :=
  Build new_param (atol self) (rtol self) (batch_shape self)
    (event_shape self).

(** [__init__(self, param, atol=1e-6, rtol=1e-6, batch_shape=None,
    event_shape=None)]: [None] becomes the empty size, the parameter and
    tolerances are stored, and when both sizes are empty they are taken
    from the shape of the parameter before [Distribution.__init__]
    records them. *)
Definition __init__ (param : tensor A) (atol rtol : A)
  (batch_shape event_shape : option Size) : t :=
  let batch_shape :=
    match batch_shape with None => [] | Some s => s end in
  let event_shape :=
    match event_shape with None => [] | Some s => s end in
  if (List.length batch_shape =? 0) && (List.length event_shape =? 0)
  then Build param atol rtol
         (slice_to (shape param) (-1)) (slice_from (shape param) (-1))
  else Build param atol rtol batch_shape event_shape.

(** [_is_equal(self, value)]: the closeness test, then one [all(i)] for
    each [i] in [range(-1, -len(self.event_shape) - 1, -1)]. *)
Definition _is_equal (self : t) (value : tensor A)
  : result (tensor bool) :=
  param <- Torch.expand_as (param self) value ;;
  let is_equal :=
    Torch.lt (Torch.abs (Torch.sub value param))
      (Torch.radd (atol self)
         (Torch.rmul (rtol self) (Torch.abs param))) in
  for_each (fun is_equal i => Torch.all_dim is_equal i)
    (range_down (List.length (event_shape self))) is_equal.

(** [log_prob(self, value)]. *)
Definition log_prob (self : t) (value : tensor A) : result (tensor A) :=
  is_equal <- _is_equal self value ;;
  let out := Torch.zeros_like is_equal in
  let out := Torch.masked_fill out is_equal pinf in
  let out := Torch.masked_fill out (Torch.logical_not is_equal) ninf in
  Ok out.

(** [sample(self, sample_shape=None)] and [rsample]. *)
Definition sample (self : t) (sample_shape : option Size)
  : result (tensor A) :=
  let sample_shape :=
    match sample_shape with None => [] | Some s => s end in
  Torch.expand (param self) (sample_shape ++ shape (param self)).

Definition rsample (self : t) (sample_shape : option Size)
  : result (tensor A) :=
  let sample_shape :=
    match sample_shape with None => [] | Some s => s end in
  Torch.expand (param self) (sample_shape ++ shape (param self)).

(** The properties [mode], [mean] and [deterministic_sample]. *)
Definition mode (self : t) : tensor A := param self.
Definition mean (self : t) : tensor A := param self.
Definition deterministic_sample (self : t) : tensor A := param self.

End Class.

End Delta.

(** *** [_logistic_deterministic_sample]

    The property installed as [D.LogisticNormal.deterministic_sample].
    Of the distribution it reads [loc] and the ordered [transforms];
    a transform is a callable on tensors that may raise. *)

Module LogisticNormal.

Section Class.
Context {A : Type}.

Record t : Type := Build {
  loc : tensor A;
  scale : tensor A;
  transforms : list (tensor A -> result (tensor A))
}.

(** [s = self.loc], then [s = t(s)] for each [t] in [self.transforms]. *)
Definition deterministic_sample (self : t) : result (tensor A) :=
  for_each (fun s transform => transform s) (transforms self) (loc self).

End Class.

End LogisticNormal.

(** ** An instance of the scalar interface: extended reals

    Floating-point numbers idealised as real numbers together with the
    two infinities and NaN; the special values follow IEEE 754, finite
    arithmetic is exact. *)

Module XReal.

Inductive xreal : Type :=
| NaN
| NInf
| Fin (r : R)
| PInf.

Definition Rltb (a b : R) : bool := if Rlt_dec a b then true else false.
Definition Rleb (a b : R) : bool := if Rle_dec a b then true else false.

Definition neg (x : xreal) : xreal :=
  match x with
  | NaN => NaN
  | NInf => PInf
  | Fin r => Fin (- r)
  | PInf => NInf
  end.

Definition add (x y : xreal) : xreal :=
  match x, y with
  | NaN, _ | _, NaN => NaN
  | PInf, NInf | NInf, PInf => NaN
  | PInf, _ | _, PInf => PInf
  | NInf, _ | _, NInf => NInf
  | Fin a, Fin b => Fin (a + b)
  end.

Definition sub (x y : xreal) : xreal := add x (neg y).

(** The sign of a product with an infinite factor. *)
Definition signed_inf (positive : bool) : xreal :=
  if positive then PInf else NInf.

Definition mul_inf (positive : bool) (y : xreal) : xreal :=
  match y with
  | NaN => NaN
  | NInf => signed_inf (negb positive)
  | PInf => signed_inf positive
  | Fin b =>
    if Rltb 0 b then signed_inf positive
    else if Rltb b 0 then signed_inf (negb positive)
    else NaN
  end.

Definition mul (x y : xreal) : xreal :=
  match x, y with
  | NaN, _ => NaN
  | PInf, _ => mul_inf true y
  | NInf, _ => mul_inf false y
  | Fin a, Fin b => Fin (a * b)
  | Fin _, PInf => mul_inf true x
  | Fin _, NInf => mul_inf false x
  | Fin _, NaN => NaN
  end.

Definition abs (x : xreal) : xreal :=
  match x with
  | NaN => NaN
  | NInf | PInf => PInf
  | Fin r => Fin (Rabs r)
  end.

Definition lt (x y : xreal) : bool :=
  match x, y with
  | NaN, _ | _, NaN => false
  | _, NInf => false
  | NInf, _ => true
  | PInf, _ => false
  | _, PInf => true
  | Fin a, Fin b => Rltb a b
  end.

Definition le (x y : xreal) : bool :=
  match x, y with
  | NaN, _ | _, NaN => false
  | NInf, _ => true
  | _, PInf => true
  | _, NInf => false
  | PInf, _ => false
  | Fin a, Fin b => Rleb a b
  end.

Definition isnan (x : xreal) : bool :=
  match x with NaN => true | _ => false end.

Definition isfinite (x : xreal) : bool :=
  match x with Fin _ => true | _ => false end.

(** [clamp_min]: NaN when either argument is, the larger one otherwise. *)
Definition clamp (x lb : xreal) : xreal :=
  if isnan x || isnan lb then NaN
  else if lt x lb then lb else x.

#[global] Instance scalar : Scalar xreal := {
  szero := Fin 0;
  pinf := PInf;
  ninf := NInf;
  sadd := add;
  ssub := sub;
  smul := mul;
  sabs := abs;
  slt := lt;
  sle := le;
  sclamp_min := clamp;
  is_nan := isnan;
  is_finite := isfinite
}.

End XReal.

(** ** The mapping registry *)

Module Registry.

Import XReal.

(** Cut a string at every occurrence of [sep]. *)
Fixpoint split_on (sep : ascii) (s : string) : list string :=
  match s with
  | EmptyString => [EmptyString]
  | String c rest =>
    if Ascii.eqb c sep then EmptyString :: split_on sep rest
    else
      match split_on sep rest with
      | [] => [String c EmptyString]
      | w :: ws => String c w :: ws
      end
  end.

Definition digit (c : ascii) : option nat :=
  let n := nat_of_ascii c in
  if (48 <=? n) && (n <=? 57) then Some (n - 48) else None.

Fixpoint digits (s : string) (acc : nat) : option nat :=
  match s with
  | EmptyString => Some acc
  | String c rest =>
    match digit c with
    | Some d => digits rest (10 * acc + d)
    | None => None
    end
  end.

(** An unsigned decimal number: digits with an optional fraction. *)
Definition parse_number (s : string) : option R :=
  match split_on "." s with
  | [i] =>
    if String.eqb i "" then None else option_map INR (digits i 0)
  | [i; f] =>
    if String.eqb i "" && String.eqb f "" then None
    else
      match digits i 0, digits f 0 with
      | Some a, Some b =>
        Some (INR a + INR b / 10 ^ String.length f)%R
      | _, _ => None
      end
  | _ => None
  end.

(** Modelled from the spec: ["softplus"] is [log(1 + exp(x))]. *)
Definition softplus (x : xreal) : xreal :=
  match x with
  | NaN => NaN
  | NInf => Fin 0
  | Fin r => Fin (ln (1 + exp r))
  | PInf => PInf
  end.

(** Modelled from the spec: ["exp"] is [exp(x)]. *)
Definition expm (x : xreal) : xreal :=
  match x with
  | NaN => NaN
  | NInf => Fin 0
  | Fin r => Fin (exp r)
  | PInf => PInf
  end.

(** Modelled from the spec: ["relu"] is [max(x, 0)]. *)
Definition relu (x : xreal) : xreal :=
  match x with
  | NaN => NaN
  | NInf => Fin 0
  | Fin r => Fin (Rmax r 0)
  | PInf => PInf
  end.

(** Modelled from the spec: a softplus shifted so that it takes the
    value [bias] at 0, clamped below by [min]. *)
Definition biased_softplus (bias min : R) (x : xreal) : xreal :=
  clamp (softplus (add x (Fin (ln (exp bias - 1))))) (Fin min).

(** Modelled from the spec: the error for an unrecognised name, which
    names the string and the legal set. *)
Definition legal_names : string :=
  "softplus, biased_softplus_<bias>[_<min>], exp, relu, none".

Definition unknown (key : string) : exn :=
  UnknownMapping
    ("Unknown mapping " ++ key ++ "; expected one of: " ++ legal_names)%string.

(** Modelled from the spec: [tensordict.nn.utils.mappings], the registry
    of positive mappings, which is not among the sources.  It knows
    ["softplus"], ["exp"], ["relu"], ["none"] and the family
    ["biased_softplus_<bias>[_<min>]"]; any other name fails with an
    [UnknownMapping] error that names the string and the legal set.
    [epsilon] is the default minimum of the biased softplus, a tiny
    positive number whose value the spec leaves open. *)
Definition mappings (epsilon : R) (key : string)
  : result (xreal -> xreal) :=
  if String.eqb key "softplus" then Ok softplus
  else if String.eqb key "exp" then Ok expm
  else if String.eqb key "relu" then Ok relu
  else if String.eqb key "none" then Ok (fun x => x)
  else if String.prefix "biased_softplus_" key then
    match map parse_number
            (split_on "_" (substring 16 (String.length key - 16) key)) with
    | [Some bias] => Ok (biased_softplus bias epsilon)
    | [Some bias; Some min] => Ok (biased_softplus bias min)
    | _ => Err (unknown key)
    end
  else Err (unknown key).

(** A value for [epsilon] in the examples. *)
Definition tiny : R := (/ 1000000)%R.

End Registry.

(** ** Auxiliary notions used in the statements *)

(** A shape argument that was left out or passed empty. *)
Definition omitted_or_empty (s : option Size) : bool :=
  match s with
  | None | Some [] => true
  | Some (_ :: _) => false
  end.

(** [needle in haystack] on strings. *)
Definition mentions (haystack needle : string) : bool :=
  match String.index 0 needle haystack with
  | Some _ => true
  | None => false
  end.

(** The closeness test of [Delta._is_equal], before any reduction. *)
Definition close_to {A : Type} `{Scalar A} (self : @Delta.t A)
  (value param : tensor A) : tensor bool :=
  Torch.lt (Torch.abs (Torch.sub value param))
    (Torch.radd (Delta.atol self)
       (Torch.rmul (Delta.rtol self) (Torch.abs param))).

(** The test [abs(v - p) < atol + rtol * abs(p)] on two numbers. *)
Definition close {A : Type} `{Scalar A} (atol rtol v p : A) : bool :=
  slt (sabs (ssub v p)) (sadd atol (smul rtol (sabs p))).

(** Concrete inputs on which the statements are exercised. *)
Module Examples.

Import XReal.

Definition vec3 : tensor xreal := of_list [3] NaN [Fin 1; Fin 2; Fin 3].

Definition mat23 : tensor xreal :=
  of_list [2; 3] NaN [Fin 1; Fin 2; Fin 3; Fin 4; Fin 5; Fin 6].

Definition mat22 : tensor xreal :=
  of_list [2; 2] NaN [Fin 1; Fin 2; Fin 3; Fin 4].

Definition row4 : tensor xreal :=
  of_list [1; 4] NaN [Fin 1; Fin 2; Fin 3; Fin 4].

Definition tol : xreal := Fin (/ 1000000).

Definition lower_bound : xreal := Fin (/ 10000).

End Examples.

(** * Properties *)

Unset Implicit Arguments.

(** ** Python slices against list operations *)

Lemma clip_nonneg (len : nat) (i : nat) :
  clip len (Z.of_nat i) = Nat.min i len.
Proof.
  unfold clip.
  destruct (Z.ltb_spec (Z.of_nat i) 0); lia.
Qed.

Lemma clip_neg (len : nat) (i : nat) :
  0 < i -> clip len (- Z.of_nat i) = len - i.
Proof.
  intros Hi. unfold clip.
  destruct (Z.ltb_spec (- Z.of_nat i) 0); lia.
Qed.

Lemma slice_to_minus_one {T : Type} (l : list T) :
  slice_to l (-1) = removelast l.
Proof.
  unfold slice_to.
  change (-1)%Z with (- Z.of_nat 1)%Z.
  rewrite clip_neg by lia.
  rewrite removelast_firstn_len.
  f_equal. lia.
Qed.

Lemma slice_from_minus_one {T : Type} (l : list T) :
  slice_from l (-1) = skipn (List.length l - 1) l.
Proof.
  unfold slice_from.
  change (-1)%Z with (- Z.of_nat 1)%Z.
  rewrite clip_neg by lia.
  reflexivity.
Qed.

Lemma slice_from_snoc {T : Type} (pre : list T) (x : T) :
  slice_from (pre ++ [x]) (-1) = [x].
Proof.
  rewrite slice_from_minus_one, length_app. simpl.
  replace (List.length pre + 1 - 1) with (List.length pre + 0) by lia.
  rewrite skipn_app, Nat.add_0_r, skipn_all.
  replace (List.length pre - List.length pre) with 0 by lia.
  reflexivity.
Qed.

(** [l[-0:]] is the whole list: [-0] is [0]. *)
Lemma slice_from_minus_zero {T : Type} (l : list T) :
  slice_from l (- Z.of_nat 0) = l.
Proof.
  unfold slice_from. change (- Z.of_nat 0)%Z with (Z.of_nat 0).
  rewrite clip_nonneg. reflexivity.
Qed.

(** For [n > 0], [l[-n:]] keeps the last [n] entries. *)
Lemma slice_from_neg {T : Type} (l : list T) (n : nat) :
  0 < n -> slice_from l (- Z.of_nat n) = skipn (List.length l - n) l.
Proof.
  intros Hn. unfold slice_from. rewrite clip_neg by exact Hn. reflexivity.
Qed.

Lemma size_eqb_eq (s1 s2 : Size) : size_eqb s1 s2 = true <-> s1 = s2.
Proof.
  unfold size_eqb.
  destruct (list_eq_dec Nat.eq_dec s1 s2); split; congruence.
Qed.

Lemma size_eqb_refl (s : Size) : size_eqb s s = true.
Proof. apply size_eqb_eq. reflexivity. Qed.

(** ** Indices *)

Lemma in_range_length (idx : list nat) (s : Size) :
  in_range idx s -> List.length idx = List.length s.
Proof. apply Forall2_length. Qed.

Lemma in_rangeb_spec (idx : list nat) (s : Size) :
  in_rangeb idx s = true <-> in_range idx s.
Proof.
  revert s. induction idx as [| i idx IH]; intros [| d s]; simpl.
  - split; [constructor | reflexivity].
  - split; [discriminate | intros Hr; inversion Hr].
  - split; [discriminate | intros Hr; inversion Hr].
  - rewrite andb_true_iff, Nat.ltb_lt, IH. split.
    + intros [Hi Hr]. constructor; assumption.
    + intros Hr. inversion Hr; subst. split; assumption.
Qed.

Lemma in_range_app (i1 i2 : list nat) (s1 s2 : Size) :
  in_range i1 s1 -> in_range i2 s2 -> in_range (i1 ++ i2) (s1 ++ s2).
Proof. apply Forall2_app. Qed.

(** An index in range for [pre ++ [n]] ends in a coordinate below [n]. *)
Lemma in_range_snoc_inv (idx : list nat) (pre : Size) (n : nat) :
  in_range idx (pre ++ [n]) ->
  exists idx' j, idx = idx' ++ [j] /\ in_range idx' pre /\ j < n.
Proof.
  intros Hr. apply Forall2_app_inv_r in Hr.
  destruct Hr as (idx' & tl & Hpre & Htl & ->).
  inversion Htl as [| j n' tl' nil' Hj Hnil]; subst.
  inversion Hnil; subst.
  exists idx', j. repeat split; assumption.
Qed.

Lemma map_last_snoc (f : nat -> nat) (idx : list nat) (j : nat) :
  Torch.map_last f (idx ++ [j]) = idx ++ [f j].
Proof.
  induction idx as [| i idx IH]; simpl; [reflexivity |].
  rewrite IH. destruct (idx ++ [j]) eqn:E; [| reflexivity].
  destruct idx; discriminate.
Qed.

Lemma map_last_id (idx : list nat) :
  Torch.map_last (fun j => 0 + j) idx = idx.
Proof.
  induction idx as [| i idx IH]; [reflexivity |].
  destruct idx as [| i' idx]; [reflexivity |].
  change (Torch.map_last (fun j => 0 + j) (i :: i' :: idx))
    with (i :: Torch.map_last (fun j => 0 + j) (i' :: idx)).
  rewrite IH. reflexivity.
Qed.

(** ** [expand] *)

Section ExpandFacts.
Context {A : Type}.

Lemma keeps_sizes (s : Size) :
  forallb (fun ds : nat * nat => (fst ds =? snd ds) || (fst ds =? 1))
    (combine s s) = true.
Proof.
  induction s as [| d s IH]; simpl; [reflexivity |].
  rewrite Nat.eqb_refl, IH. reflexivity.
Qed.

Lemma unbroadcast_in_range (idx : list nat) (s : Size) :
  in_range idx s ->
  map (fun di : nat * nat => if fst di =? 1 then 0 else snd di)
    (combine s idx) = idx.
Proof.
  induction 1 as [| i d idx s Hi Hr IH]; simpl; [reflexivity |].
  rewrite IH. destruct (Nat.eqb_spec d 1); [f_equal; lia | reflexivity].
Qed.

(** Expanding to a shape that ends in the tensor's own shape always
    succeeds and repeats the tensor along the new leading dimensions. *)
Lemma expand_leading (t : tensor A) (lead : Size) :
  exists r,
    Torch.expand t (lead ++ shape t) = Ok r /\
    shape r = lead ++ shape t /\
    forall i_lead i_t,
      List.length i_lead = List.length lead ->
      in_range i_t (shape t) ->
      get r (i_lead ++ i_t) = get t i_t.
Proof.
  unfold Torch.expand.
  rewrite length_app.
  destruct (Nat.ltb_spec (List.length lead + List.length (shape t))
              (List.length (shape t))) as [Hlt | _]; [lia |].
  replace (List.length lead + List.length (shape t) - List.length (shape t))
    with (List.length lead + 0) by lia.
  rewrite skipn_app, Nat.add_0_r, skipn_all.
  replace (List.length lead - List.length lead) with 0 by lia.
  simpl skipn. simpl app at 1.
  rewrite keeps_sizes.
  eexists. split; [reflexivity |]. split; [reflexivity |].
  intros i_lead i_t Hlen Hr. simpl.
  rewrite skipn_app, <- Hlen, skipn_all.
  replace (List.length i_lead - List.length i_lead) with 0 by lia.
  simpl. rewrite unbroadcast_in_range by exact Hr. reflexivity.
Qed.

End ExpandFacts.

(** ** [NormalParamWrapper] *)

(** C9: constructing [NormalParamWrapper] fails for all arguments with a
    [RuntimeError] whose message points to [NormalParamExtractor]; no
    instance is returned. *)
Theorem C9_wrapper_always_fails (Operator Number : Type)
  (operator : Operator) (scale_mapping : option string)
  (scale_lb : option Number) :
  NormalParamWrapper.__init__ operator scale_mapping scale_lb
    = Err (RuntimeError NormalParamWrapper.deprecation_message) /\
  is_ok (NormalParamWrapper.__init__ operator scale_mapping scale_lb)
    = false /\
  mentions NormalParamWrapper.deprecation_message "NormalParamExtractor"
    = true.
Proof.
  repeat split.
Qed.

(** ** [Delta]: construction *)

Section DeltaConstruction.
Context {A : Type} `{Scalar A}.

Lemma init_derives (p : tensor A) (atol rtol : A) (bs es : option Size) :
  omitted_or_empty bs = true -> omitted_or_empty es = true ->
  Delta.__init__ p atol rtol bs es
    = Delta.Build p atol rtol (removelast (shape p))
        (skipn (List.length (shape p) - 1) (shape p)).
Proof.
  intros Hb He.
  destruct bs as [[| b bs] |], es as [[| e es] |]; try discriminate;
    unfold Delta.__init__; simpl;
    rewrite slice_to_minus_one, slice_from_minus_one; reflexivity.
Qed.

Lemma init_keeps (p : tensor A) (atol rtol : A) (bs es : option Size) :
  omitted_or_empty bs && omitted_or_empty es = false ->
  Delta.__init__ p atol rtol bs es
    = Delta.Build p atol rtol
        (match bs with None => [] | Some s => s end)
        (match es with None => [] | Some s => s end).
Proof.
  intros Hne.
  destruct bs as [[| b bs] |], es as [[| e es] |]; try discriminate;
    reflexivity.
Qed.

End DeltaConstruction.

(** C8: with [batch_shape] and [event_shape] both left unspecified, the
    batch shape is [param.shape[:-1]] (all dimensions but the last) and the
    event shape is [param.shape[-1:]] (the last dimension, if any). *)
Theorem C8_shapes_derived_from_param (A : Type) `{Scalar A}
  (p : tensor A) (atol rtol : A) :
  let d := Delta.__init__ p atol rtol None None in
  Delta.batch_shape d = slice_to (shape p) (-1) /\
  Delta.event_shape d = slice_from (shape p) (-1) /\
  Delta.batch_shape d = removelast (shape p) /\
  Delta.event_shape d = skipn (List.length (shape p) - 1) (shape p) /\
  Delta.batch_shape d ++ Delta.event_shape d = shape p.
Proof.
  simpl. rewrite <- slice_to_minus_one, <- slice_from_minus_one.
  repeat split.
  apply firstn_skipn.
Qed.

(** C10: empty shapes passed explicitly are treated like omitted ones, so
    for a parameter with at least one dimension the derived shapes replace
    them; when exactly one shape is passed non-empty nothing is derived
    and the other one is empty. *)
Theorem C10_empty_shapes_are_derived (A : Type) `{Scalar A}
  (p : tensor A) (atol rtol : A) :
  (forall bs es,
      omitted_or_empty bs = true -> omitted_or_empty es = true ->
      Delta.__init__ p atol rtol bs es
        = Delta.__init__ p atol rtol None None) /\
  (forall pre n,
      shape p = pre ++ [n] ->
      Delta.batch_shape (Delta.__init__ p atol rtol (Some []) (Some []))
        = pre /\
      Delta.event_shape (Delta.__init__ p atol rtol (Some []) (Some []))
        = [n]) /\
  (forall bs es,
      bs <> [] -> omitted_or_empty es = true ->
      Delta.batch_shape (Delta.__init__ p atol rtol (Some bs) es) = bs /\
      Delta.event_shape (Delta.__init__ p atol rtol (Some bs) es) = []) /\
  (forall bs es,
      omitted_or_empty bs = true -> es <> [] ->
      Delta.batch_shape (Delta.__init__ p atol rtol bs (Some es)) = [] /\
      Delta.event_shape (Delta.__init__ p atol rtol bs (Some es)) = es).
Proof.
  split; [| split; [| split]].
  - intros bs es Hb He.
    rewrite (init_derives p atol rtol bs es Hb He).
    rewrite (init_derives p atol rtol None None); reflexivity.
  - intros pre n Hp.
    rewrite (init_derives p atol rtol (Some []) (Some [])) by reflexivity.
    simpl. rewrite Hp, removelast_last, <- slice_from_minus_one.
    split; [reflexivity | apply slice_from_snoc].
  - intros bs es Hbs He.
    rewrite init_keeps.
    + destruct es as [[| e es] |]; try discriminate; split; reflexivity.
    + destruct bs; [congruence | reflexivity].
  - intros bs es Hb Hes.
    rewrite init_keeps.
    + destruct bs as [[| b bs] |]; try discriminate; split; reflexivity.
    + destruct es; [congruence |]. apply andb_false_r.
Qed.

Lemma C10_witness :
  Delta.__init__ Examples.mat23 Examples.tol Examples.tol (Some []) None
    = Delta.__init__ Examples.mat23 Examples.tol Examples.tol None None /\
  Delta.event_shape
    (Delta.__init__ Examples.mat23 Examples.tol Examples.tol
       (Some []) (Some [])) = [3] /\
  Delta.event_shape
    (Delta.__init__ Examples.mat23 Examples.tol Examples.tol
       (Some [2; 3]) (Some [])) = [] /\
  Delta.batch_shape
    (Delta.__init__ Examples.mat23 Examples.tol Examples.tol
       None (Some [3])) = [].
Proof.
  destruct (C10_empty_shapes_are_derived _ Examples.mat23 Examples.tol
              Examples.tol) as (Hsame & Hderived & Hbatch & Hevent).
  split; [| split; [| split]].
  - apply Hsame; reflexivity.
  - apply (Hderived [2] 3). reflexivity.
  - apply Hbatch; [discriminate | reflexivity].
  - apply Hevent; [reflexivity | discriminate].
Defined.

(** ** [Delta]: sampling *)

Section DeltaSampling.
Context {A : Type} `{Scalar A}.

Lemma sample_expands (d : @Delta.t A) (s : option Size) :
  exists t,
    Delta.sample d s = Ok t /\
    Delta.rsample d s = Ok t /\
    shape t = match s with None => [] | Some l => l end
                ++ shape (Delta.param d) /\
    forall i_s i_p,
      List.length i_s
        = List.length (match s with None => [] | Some l => l end) ->
      in_range i_p (shape (Delta.param d)) ->
      get t (i_s ++ i_p) = get (Delta.param d) i_p.
Proof.
  unfold Delta.sample, Delta.rsample.
  destruct (expand_leading (Delta.param d)
              (match s with None => [] | Some l => l end))
    as (t & Ht & Hshape & Hget).
  exists t. repeat split; assumption.
Qed.

Lemma sample_default (d : @Delta.t A) :
  exists t,
    Delta.sample d None = Ok t /\ Delta.rsample d None = Ok t /\
    teq t (Delta.param d).
Proof.
  destruct (sample_expands d None) as (t & Hs & Hr & Hshape & Hget).
  exists t. repeat split; try assumption.
  intros idx Hidx. rewrite Hshape in Hidx.
  apply (Hget [] idx); [reflexivity | exact Hidx].
Qed.

End DeltaSampling.

(** C6: [sample(s)] and [rsample(s)] return the parameter repeated along
    the leading dimensions [s], with shape [s + param.shape]; with the
    default sample shape the result is elementwise equal to the
    parameter; [mode], [mean] and [deterministic_sample] are the
    parameter itself. *)
Theorem C6_sampling_returns_param (A : Type) `{Scalar A} (d : @Delta.t A)
  (s : Size) :
  (exists t,
      Delta.sample d (Some s) = Ok t /\
      Delta.rsample d (Some s) = Ok t /\
      shape t = s ++ shape (Delta.param d) /\
      forall i_s i_p,
        List.length i_s = List.length s ->
        in_range i_p (shape (Delta.param d)) ->
        get t (i_s ++ i_p) = get (Delta.param d) i_p) /\
  (exists t,
      Delta.sample d None = Ok t /\ Delta.rsample d None = Ok t /\
      teq t (Delta.param d)) /\
  Delta.mode d = Delta.param d /\
  Delta.mean d = Delta.param d /\
  Delta.deterministic_sample d = Delta.param d.
Proof.
  split; [exact (sample_expands d (Some s)) |].
  split; [exact (sample_default d) |].
  repeat split.
Qed.

Lemma C6_witness :
  exists t,
    Delta.sample
      (Delta.__init__ Examples.vec3 Examples.tol Examples.tol None None)
      (Some [2]) = Ok t /\
    shape t = [2; 3] /\
    get t [1; 2] = XReal.Fin 3.
Proof.
  destruct (C6_sampling_returns_param _
              (Delta.__init__ Examples.vec3 Examples.tol Examples.tol
                 None None) [2])
    as ((t & Hs & _ & Hshape & Hget) & _).
  exists t. split; [exact Hs |]. split; [exact Hshape |].
  apply (Hget [1] [2]); [reflexivity |].
  apply in_rangeb_spec. reflexivity.
Defined.

(** C7: after [update(q)], [sample()] returns [q] whatever the parameter
    given at construction was, and the batch and event shapes are the
    ones fixed at construction. *)
Theorem C7_update_then_sample (A : Type) `{Scalar A} (p q : tensor A)
  (atol rtol : A) (batch_shape event_shape : option Size) :
  let d := Delta.__init__ p atol rtol batch_shape event_shape in
  (exists t,
      Delta.sample (Delta.update d q) None = Ok t /\
      Delta.rsample (Delta.update d q) None = Ok t /\
      teq t q) /\
  Delta.param (Delta.update d q) = q /\
  Delta.batch_shape (Delta.update d q) = Delta.batch_shape d /\
  Delta.event_shape (Delta.update d q) = Delta.event_shape d.
Proof.
  intros d. split; [| repeat split].
  exact (sample_default (Delta.update d q)).
Qed.

(** ** The extended reals satisfy the scalar laws *)

Lemma xreal_clamp_lower (x lb : XReal.xreal) :
  XReal.isnan x = false -> XReal.isnan lb = false ->
  XReal.le lb (XReal.clamp x lb) = true.
Proof.
  destruct x as [| | a |], lb as [| | b |]; simpl; try discriminate;
    intros _ _; unfold XReal.clamp; simpl; try reflexivity.
  - unfold XReal.Rleb. destruct (Rle_dec b b) as [_ | n]; [reflexivity | lra].
  - unfold XReal.Rltb.
    destruct (Rlt_dec a b) as [Hlt | Hge]; unfold XReal.Rleb.
    + destruct (Rle_dec b b) as [_ | n]; [reflexivity | lra].
    + destruct (Rle_dec b a) as [_ | n]; [reflexivity | lra].
Qed.

#[global] Instance xreal_laws : ScalarLaws XReal.xreal.
Proof.
  split.
  - reflexivity.
  - reflexivity.
  - intros [| | r |]; simpl; intros Hf; discriminate || reflexivity.
  - exact xreal_clamp_lower.
Qed.

(** Every mapping of the registry sends finite numbers to numbers. *)
Lemma registry_finite (epsilon : R) (key : string)
  (f : XReal.xreal -> XReal.xreal) :
  Registry.mappings epsilon key = Ok f ->
  forall a, is_finite a = true -> is_nan (f a) = false.
Proof.
  assert (Hbiased : forall bias min a,
             is_finite a = true ->
             is_nan (Registry.biased_softplus bias min a) = false).
  { intros bias min [| | r |]; simpl; try discriminate. intros _.
    unfold Registry.biased_softplus, XReal.clamp. simpl.
    destruct (XReal.Rltb _ _); reflexivity. }
  unfold Registry.mappings.
  destruct (String.eqb key "softplus");
    [intros [= <-] [| | r |]; simpl; congruence |].
  destruct (String.eqb key "exp");
    [intros [= <-] [| | r |]; simpl; congruence |].
  destruct (String.eqb key "relu");
    [intros [= <-] [| | r |]; simpl; congruence |].
  destruct (String.eqb key "none");
    [intros [= <-] [| | r |]; simpl; congruence |].
  destruct (String.prefix "biased_softplus_" key); [| discriminate].
  destruct (map Registry.parse_number _) as [| [bias |] [| [min |] [| ? ?]]];
    try discriminate; intros [= <-]; apply Hbiased.
Qed.

(** ** [Delta]: log-probability *)

Lemma wrap_dim_minus_one (ndim : nat) :
  0 < ndim -> Torch.wrap_dim ndim (-1) = Ok (ndim - 1).
Proof.
  intros Hpos. unfold Torch.wrap_dim.
  replace (Nat.max ndim 1) with ndim by lia.
  destruct (Z.ltb_spec (-1) (- Z.of_nat ndim)) as [Hlow | _]; [lia |].
  destruct (Z.leb_spec (Z.of_nat ndim) (-1)) as [Hhigh | _]; [lia |].
  cbn [orb]. change (-1 <? 0)%Z with true. cbv iota.
  f_equal. lia.
Qed.

(** [all(-1)] removes the last dimension and holds the conjunction of
    the entries along it. *)
Lemma all_dim_last (t : tensor bool) (pre : Size) (m : nat) :
  shape t = pre ++ [m] ->
  exists r,
    Torch.all_dim t (-1) = Ok r /\
    shape r = pre /\
    forall idx,
      List.length idx = List.length pre ->
      get r idx = forallb (fun j => get t (idx ++ [j])) (seq 0 m).
Proof.
  intros Hshape. unfold Torch.all_dim. rewrite Hshape.
  rewrite wrap_dim_minus_one by (rewrite length_app; simpl; lia).
  cbn [bind].
  replace (List.length (pre ++ [m]) - 1) with (List.length pre)
    by (rewrite length_app; simpl; lia).
  destruct (pre ++ [m]) as [| d0 rest] eqn:E; [destruct pre; discriminate |].
  eexists. split; [reflexivity |]. cbn [shape get]. rewrite <- E. split.
  - rewrite firstn_app, firstn_all, Nat.sub_diag, firstn_O, app_nil_r.
    rewrite skipn_all2; [apply app_nil_r |].
    rewrite length_app. simpl. lia.
  - intros idx Hlen.
    rewrite app_nth2, Nat.sub_diag by lia. cbn [nth].
    rewrite <- Hlen, firstn_all, skipn_all. reflexivity.
Qed.

Section DeltaLogProb.
Context {A : Type} `{Scalar A}.

(** Whatever [log_prob] returns holds [+inf] or [-inf] at every index. *)
Lemma log_prob_infinite (self : @Delta.t A) (value out : tensor A) :
  Delta.log_prob self value = Ok out ->
  forall idx, get out idx = pinf \/ get out idx = ninf.
Proof.
  unfold Delta.log_prob.
  destruct (Delta._is_equal self value) as [is_equal | e]; simpl;
    [| discriminate].
  intros [= <-] idx. simpl.
  destruct (get is_equal idx); simpl; [left | right]; reflexivity.
Qed.

Lemma log_prob_never_finite {L : ScalarLaws A} (self : @Delta.t A)
  (value out : tensor A) :
  Delta.log_prob self value = Ok out ->
  forall idx, is_finite (get out idx) = false.
Proof.
  intros Hout idx.
  destruct (log_prob_infinite self value out Hout idx) as [-> | ->].
  - apply pinf_not_finite.
  - apply ninf_not_finite.
Qed.

(** [+inf] sits exactly where the reduced test holds. *)
Lemma log_prob_fills (self : @Delta.t A) (value : tensor A)
  (is_equal : tensor bool) :
  Delta._is_equal self value = Ok is_equal ->
  exists out,
    Delta.log_prob self value = Ok out /\
    shape out = shape is_equal /\
    forall idx,
      get out idx = if get is_equal idx then pinf else ninf.
Proof.
  intros Heq. unfold Delta.log_prob. rewrite Heq. simpl.
  eexists. split; [reflexivity |]. split; [reflexivity |].
  intros idx. simpl. destruct (get is_equal idx); reflexivity.
Qed.

(** With an empty event shape nothing is reduced. *)
Lemma is_equal_event_rank_zero (self : @Delta.t A) (value param : tensor A) :
  Delta.event_shape self = [] ->
  Torch.expand_as (Delta.param self) value = Ok param ->
  Delta._is_equal self value = Ok (close_to self value param).
Proof.
  intros Hev Hexp. unfold Delta._is_equal. rewrite Hexp, Hev. reflexivity.
Qed.

(** With a one-dimensional event shape the last dimension is reduced. *)
Lemma is_equal_event_rank_one (self : @Delta.t A) (value param : tensor A)
  (n : nat) (pre : Size) (m : nat) :
  Delta.event_shape self = [n] ->
  shape value = pre ++ [m] ->
  Torch.expand_as (Delta.param self) value = Ok param ->
  exists r,
    Delta._is_equal self value = Ok r /\
    shape r = pre /\
    forall idx,
      List.length idx = List.length pre ->
      get r idx
        = forallb (fun j => get (close_to self value param) (idx ++ [j]))
            (seq 0 m).
Proof.
  intros Hev Hshape Hexp.
  unfold Delta._is_equal. rewrite Hexp, Hev.
  cbn [bind List.length range_down seq map for_each].
  fold (close_to self value param).
  destruct (all_dim_last (close_to self value param) pre m Hshape)
    as (r & Hr & Hrest).
  change (- Z.of_nat 1)%Z with (-1)%Z.
  rewrite Hr. exists r. split; [reflexivity | exact Hrest].
Qed.

(** With a two-dimensional event shape and a value of shape
    [(b, e1, e2)], the loop reduces the last dimension and then the
    first one: the result is indexed by the first event dimension and
    each entry is a conjunction over the batch and the last dimension. *)
Lemma log_prob_event_rank_two (self : @Delta.t A) (value param : tensor A)
  (n1 n2 b e1 e2 : nat) :
  Delta.event_shape self = [n1; n2] ->
  shape value = [b; e1; e2] ->
  Torch.expand_as (Delta.param self) value = Ok param ->
  exists out,
    Delta.log_prob self value = Ok out /\
    shape out = [e1] /\
    forall i,
      get out [i]
        = if forallb
               (fun k =>
                  forallb
                    (fun j => get (close_to self value param) [k; i; j])
                    (seq 0 e2))
               (seq 0 b)
          then pinf else ninf.
Proof.
  intros Hev Hshape Hexp.
  destruct (all_dim_last (close_to self value param) [b; e1] e2 Hshape)
    as (r1 & Hr1 & Hs1 & Hget1).
  assert (Heq : exists r2,
             Delta._is_equal self value = Ok r2 /\
             shape r2 = [e1] /\
             forall i,
               get r2 [i] = forallb (fun k => get r1 [k; i]) (seq 0 b)).
  { unfold Delta._is_equal. rewrite Hexp, Hev.
    cbn [bind List.length range_down seq map for_each].
    fold (close_to self value param).
    change (- Z.of_nat 1)%Z with (-1)%Z. rewrite Hr1. cbn [bind].
    unfold Torch.all_dim. rewrite Hs1.
    eexists. split; [reflexivity |]. split; reflexivity. }
  destruct Heq as (r2 & Hr2 & Hs2 & Hget2).
  destruct (log_prob_fills self value r2 Hr2) as (out & Hout & Hso & Hgo).
  exists out. split; [exact Hout |]. split; [congruence |].
  intros i. rewrite Hgo, Hget2.
  replace (forallb (fun k => get r1 [k; i]) (seq 0 b))
    with (forallb
            (fun k =>
               forallb (fun j => get (close_to self value param) [k; i; j])
                 (seq 0 e2))
            (seq 0 b)); [reflexivity |].
  clear Hget2.
  induction (seq 0 b) as [| k ks IH]; [reflexivity |].
  cbn [forallb]. rewrite IH.
  rewrite (Hget1 [k; i] eq_refl). reflexivity.
Qed.

End DeltaLogProb.

(** C4: [log_prob] at an event shape of two dimensions.  The reduction
    [all(-1)] then [all(-2)] runs on a tensor that has already lost its
    last dimension: with an empty batch shape the second step is out of
    range, and with a batch dimension it is the batch dimension that is
    reduced, so the result has the shape of the first event dimension and
    not the batch shape. *)
Theorem C4_log_prob_event_rank_two (A : Type) `{Scalar A} (atol rtol v : A) :
  (let d := Delta.__init__ (full [2; 2] v) atol rtol
              (Some []) (Some [2; 2]) in
   Delta.log_prob d (full [2; 2] v)
     = Err (IndexError "Dimension out of range")) /\
  (let d := Delta.__init__ (full [2; 3; 4] v) atol rtol
              (Some [2]) (Some [3; 4]) in
   exists out,
     Delta.log_prob d (full [2; 3; 4] v) = Ok out /\
     shape out = [3] /\
     Delta.batch_shape d = [2]).
Proof.
  split.
  - reflexivity.
  - eexists. split; [reflexivity |]. split; reflexivity.
Qed.

(** ** [AddStateIndependentNormalScale] *)

Section StateIndependentScale.
Context {A : Type} `{Scalar A}.
Variable mappings : string -> result (A -> A).

(** A shape check that passes leaves the scale shape as a suffix of the
    shape of [loc]. *)
Lemma trailing_check_suffix (ss s : Size) :
  size_eqb ss (slice_from s (- Z.of_nat (List.length ss))) = true ->
  skipn (List.length s - List.length ss) s = ss.
Proof.
  rewrite size_eqb_eq. destruct ss as [| d ss].
  - rewrite slice_from_minus_zero. intros <-. reflexivity.
  - rewrite slice_from_neg by (simpl; lia). congruence.
Qed.

(** A tensor expands to any shape that ends in its own. *)
Lemma expand_suffix (t : tensor A) (s : Size) :
  skipn (List.length s - List.length (shape t)) s = shape t ->
  exists r, Torch.expand t s = Ok r /\ shape r = s.
Proof.
  intros Hsuffix. unfold Torch.expand.
  assert (Hlen : List.length (shape t) <= List.length s).
  { rewrite <- Hsuffix at 1. rewrite length_skipn. lia. }
  destruct (Nat.ltb_spec (List.length s) (List.length (shape t)));
    [lia |].
  rewrite Hsuffix, keeps_sizes.
  eexists. split; reflexivity.
Qed.

Lemma init_state (scale_shape : option AddStateIndependentNormalScale.shape_arg)
  (scale_mapping : option string) (scale_lb : A) (make_param : bool)
  (init_value : A) :
  exists m : @AddStateIndependentNormalScale.t A,
    AddStateIndependentNormalScale.__init__ scale_shape scale_mapping
      scale_lb make_param init_value = Ok m /\
    AddStateIndependentNormalScale.scale_mapping m
      = match scale_mapping with None => "exp" | Some s => s end /\
    AddStateIndependentNormalScale.scale_shape m
      = match scale_shape with
        | None => []
        | Some (AddStateIndependentNormalScale.an_int n) => [n]
        | Some (AddStateIndependentNormalScale.a_tuple s) => s
        end /\
    AddStateIndependentNormalScale.scale_lb m = scale_lb /\
    AddStateIndependentNormalScale.data_of
      (AddStateIndependentNormalScale.state_independent_scale m)
      = full (AddStateIndependentNormalScale.scale_shape m) init_value.
Proof.
  eexists. split; [reflexivity |]. simpl.
  repeat split. destruct make_param; reflexivity.
Qed.

(** With a scale shape of at least one dimension, [forward] succeeds
    exactly when the shape of [loc] ends in the scale shape, provided the
    registry knows the mapping. *)
Lemma forward_checks_trailing_dims (m : @AddStateIndependentNormalScale.t A) (loc : tensor A)
  (others : list (tensor A)) (f : A -> A) :
  AddStateIndependentNormalScale.scale_shape m <> [] ->
  shape (AddStateIndependentNormalScale.data_of
           (AddStateIndependentNormalScale.state_independent_scale m))
    = AddStateIndependentNormalScale.scale_shape m ->
  mappings (AddStateIndependentNormalScale.scale_mapping m) = Ok f ->
  let ss := AddStateIndependentNormalScale.scale_shape m in
  let trailing := skipn (List.length (shape loc) - List.length ss) (shape loc) in
  (trailing = ss ->
   exists scale,
     AddStateIndependentNormalScale.forward mappings m loc others
       = Ok (loc :: scale :: others) /\
     shape scale = shape loc) /\
  (trailing <> ss ->
   AddStateIndependentNormalScale.forward mappings m loc others
     = Err (RuntimeError
              (AddStateIndependentNormalScale.mismatch_message m loc))).
Proof.
  intros Hne Hdata Hf. cbv zeta.
  unfold AddStateIndependentNormalScale.forward.
  remember (AddStateIndependentNormalScale.scale_shape m) as ss eqn:Ess.
  remember (skipn (List.length (shape loc) - List.length ss) (shape loc))
    as trailing eqn:Etr.
  assert (Hslice :
    slice_from (shape loc) (- Z.of_nat (List.length ss)) = trailing).
  { rewrite Etr. apply slice_from_neg.
    destruct ss; [contradiction | simpl; lia]. }
  rewrite Hslice. split.
  - intros Heq. rewrite Heq, size_eqb_refl. cbn [negb].
    destruct (expand_suffix
                (AddStateIndependentNormalScale.data_of
                   (AddStateIndependentNormalScale.state_independent_scale m))
                (shape loc)) as (r & Hr & Hshape).
    { rewrite Hdata, <- Etr. exact Heq. }
    unfold Torch.expand_as. rewrite Hr. cbn [bind]. rewrite Hf. cbn [bind].
    eexists. split; [reflexivity | exact Hshape].
  - intros Hneq.
    destruct (size_eqb ss trailing) eqn:E; [| reflexivity].
    apply size_eqb_eq in E. congruence.
Qed.

(** With an empty scale shape the check compares the whole shape of
    [loc] with the empty shape. *)
Lemma forward_empty_scale_shape (m : @AddStateIndependentNormalScale.t A) (loc : tensor A)
  (others : list (tensor A)) :
  AddStateIndependentNormalScale.scale_shape m = [] ->
  shape loc <> [] ->
  AddStateIndependentNormalScale.forward mappings m loc others
    = Err (RuntimeError
             (AddStateIndependentNormalScale.mismatch_message m loc)).
Proof.
  intros Hss Hloc. unfold AddStateIndependentNormalScale.forward.
  rewrite Hss. cbn [List.length]. rewrite slice_from_minus_zero.
  destruct (size_eqb [] (shape loc)) eqn:E; [| reflexivity].
  apply size_eqb_eq in E. congruence.
Qed.

(** An unknown mapping name never yields a result from [forward]: a
    failing shape check raises the shape mismatch, and only a passing one
    reaches the registry and raises its error. *)
Lemma forward_unknown_mapping (m : @AddStateIndependentNormalScale.t A)
  (loc : tensor A) (others : list (tensor A)) (e : exn) :
  shape (AddStateIndependentNormalScale.data_of
           (AddStateIndependentNormalScale.state_independent_scale m))
    = AddStateIndependentNormalScale.scale_shape m ->
  mappings (AddStateIndependentNormalScale.scale_mapping m) = Err e ->
  is_ok (AddStateIndependentNormalScale.forward mappings m loc others)
    = false /\
  (size_eqb (AddStateIndependentNormalScale.scale_shape m)
     (slice_from (shape loc)
        (- Z.of_nat
             (List.length (AddStateIndependentNormalScale.scale_shape m))))
     = true ->
   AddStateIndependentNormalScale.forward mappings m loc others = Err e) /\
  (size_eqb (AddStateIndependentNormalScale.scale_shape m)
     (slice_from (shape loc)
        (- Z.of_nat
             (List.length (AddStateIndependentNormalScale.scale_shape m))))
     = false ->
   AddStateIndependentNormalScale.forward mappings m loc others
     = Err (RuntimeError
              (AddStateIndependentNormalScale.mismatch_message m loc))).
Proof.
  intros Hdata He. unfold AddStateIndependentNormalScale.forward.
  destruct (size_eqb _ _) eqn:Hcheck; cbn [negb].
  - apply trailing_check_suffix in Hcheck.
    destruct (expand_suffix
                (AddStateIndependentNormalScale.data_of
                   (AddStateIndependentNormalScale.state_independent_scale m))
                (shape loc)) as (r & Hr & _).
    { rewrite Hdata. exact Hcheck. }
    unfold Torch.expand_as. rewrite Hr. cbn [bind]. rewrite He.
    split; [reflexivity |].
    split; [intros _; reflexivity | discriminate].
  - split; [reflexivity |].
    split; [discriminate | intros _; reflexivity].
Qed.

End StateIndependentScale.

(** C1: with the default (empty) [scale_shape], [forward] raises the
    shape-mismatch [RuntimeError] for every [loc] that has at least one
    dimension, although the last zero dimensions of [loc] do equal the
    empty shape: [loc.shape[-0:]] is the whole shape.  The message reports
    that shape and the shape of the scale. *)
Theorem C1_default_scale_shape_rejects_loc (A : Type) `{Scalar A}
  (mappings : string -> result (A -> A)) (scale_mapping : option string)
  (scale_lb init_value : A) (make_param : bool) (loc : tensor A)
  (others : list (tensor A)) :
  shape loc <> [] ->
  exists m,
    AddStateIndependentNormalScale.__init__ None scale_mapping scale_lb
      make_param init_value = Ok m /\
    AddStateIndependentNormalScale.scale_shape m = [] /\
    AddStateIndependentNormalScale.forward mappings m loc others
      = Err (RuntimeError
               ("Last dimensions of loc (" ++ repr_size (shape loc)
                  ++ ") do not match the number of dimensions in scale (torch.Size([]))")%string).
Proof.
  intros Hloc.
  destruct (init_state None scale_mapping scale_lb make_param init_value)
    as (m & Hinit & _ & Hss & _ & Hdata).
  exists m. split; [exact Hinit |]. split; [exact Hss |].
  rewrite (forward_empty_scale_shape mappings m loc others Hss Hloc).
  unfold AddStateIndependentNormalScale.mismatch_message.
  rewrite Hdata, Hss. cbn [List.length]. rewrite slice_from_minus_zero.
  reflexivity.
Qed.

Lemma C1_witness :
  exists m,
    AddStateIndependentNormalScale.__init__ None None Examples.lower_bound
      true (XReal.Fin 0) = Ok m /\
    AddStateIndependentNormalScale.scale_shape m = [] /\
    AddStateIndependentNormalScale.forward (Registry.mappings Registry.tiny)
      m Examples.vec3 []
      = Err (RuntimeError
               "Last dimensions of loc (torch.Size([3])) do not match the number of dimensions in scale (torch.Size([]))").
Proof.
  apply (C1_default_scale_shape_rejects_loc _
           (Registry.mappings Registry.tiny) None Examples.lower_bound
           (XReal.Fin 0) true Examples.vec3 []).
  discriminate.
Defined.

(** ** Unknown mapping names *)

(** C5 (as the code has it): for a name the registry rejects,
    [NormalParamExtractor] fails at construction with the registry's
    error; [AddStateIndependentNormalScale] is constructed and keeps the
    name, which is resolved in [forward] after the shape check: every
    later [forward] fails, with the shape-mismatch error when the shape
    check fails and with the registry's error when it passes.  No mapping
    is applied in place of the unknown one. *)
Theorem C5_unknown_mapping_name (A : Type) `{Scalar A}
  (mappings : string -> result (A -> A)) (key : string) (e : exn)
  (scale_lb init_value : A)
  (scale_shape : option AddStateIndependentNormalScale.shape_arg)
  (make_param : bool) :
  mappings key = Err e ->
  NormalParamExtractor.__init__ mappings (Some key) scale_lb = Err e /\
  exists m,
    AddStateIndependentNormalScale.__init__ scale_shape (Some key) scale_lb
      make_param init_value = Ok m /\
    AddStateIndependentNormalScale.scale_mapping m = key /\
    forall loc others,
      is_ok (AddStateIndependentNormalScale.forward mappings m loc others)
        = false /\
      (size_eqb (AddStateIndependentNormalScale.scale_shape m)
         (slice_from (shape loc)
            (- Z.of_nat
                 (List.length
                    (AddStateIndependentNormalScale.scale_shape m))))
         = true ->
       AddStateIndependentNormalScale.forward mappings m loc others
         = Err e) /\
      (size_eqb (AddStateIndependentNormalScale.scale_shape m)
         (slice_from (shape loc)
            (- Z.of_nat
                 (List.length
                    (AddStateIndependentNormalScale.scale_shape m))))
         = false ->
       AddStateIndependentNormalScale.forward mappings m loc others
         = Err (RuntimeError
                  (AddStateIndependentNormalScale.mismatch_message m loc))).
Proof.
  intros He. split.
  - unfold NormalParamExtractor.__init__. rewrite He. reflexivity.
  - destruct (init_state scale_shape (Some key) scale_lb make_param
                init_value) as (m & Hinit & Hkey & _ & _ & Hdata).
    exists m. split; [exact Hinit |]. split; [exact Hkey |].
    intros loc others.
    apply forward_unknown_mapping.
    + rewrite Hdata. reflexivity.
    + rewrite Hkey. exact He.
Qed.

Lemma C5_witness :
  NormalParamExtractor.__init__ (Registry.mappings Registry.tiny)
    (Some "bogus") Examples.lower_bound
    = Err (Registry.unknown "bogus") /\
  exists m,
    AddStateIndependentNormalScale.__init__
      (Some (AddStateIndependentNormalScale.an_int 3)) (Some "bogus")
      Examples.lower_bound true (XReal.Fin 0) = Ok m /\
    AddStateIndependentNormalScale.forward (Registry.mappings Registry.tiny)
      m Examples.vec3 [] = Err (Registry.unknown "bogus") /\
    AddStateIndependentNormalScale.forward (Registry.mappings Registry.tiny)
      m Examples.mat22 []
      = Err (RuntimeError
               "Last dimensions of loc (torch.Size([2])) do not match the number of dimensions in scale (torch.Size([3]))").
Proof.
  destruct (C5_unknown_mapping_name _ (Registry.mappings Registry.tiny)
              "bogus" (Registry.unknown "bogus") Examples.lower_bound
              (XReal.Fin 0)
              (Some (AddStateIndependentNormalScale.an_int 3)) true)
    as (Hextractor & m & Hinit & Hkey & Hforward).
  - reflexivity.
  - split; [exact Hextractor |].
    exists m. split; [exact Hinit |].
    injection Hinit as <-. split.
    + apply (Hforward Examples.vec3 []). reflexivity.
    + apply (proj2 (proj2 (Hforward Examples.mat22 []))). reflexivity.
Defined.

(** C5 as stated fails: the registry rejects ["bogus"], yet
    [AddStateIndependentNormalScale] is constructed with it. *)
Lemma C5_counterexample :
  ~ (forall key : string,
        is_ok (Registry.mappings Registry.tiny key) = false ->
        is_ok (NormalParamExtractor.__init__
                 (Registry.mappings Registry.tiny) (Some key)
                 Examples.lower_bound) = false /\
        is_ok (AddStateIndependentNormalScale.__init__ None (Some key)
                 Examples.lower_bound true (XReal.Fin 0)) = false).
Proof.
  intros Hclaim.
  destruct (Hclaim "bogus" eq_refl) as [_ Hscale].
  discriminate Hscale.
Qed.

(** ** [chunk] into two pieces *)

Section ChunkFacts.
Context {A : Type}.

Lemma last_dim (pre : Size) (n : nat) : rev (pre ++ [n]) = n :: rev pre.
Proof. apply rev_unit. Qed.

(** An even last dimension is cut into two halves. *)
Lemma chunk_even (x : tensor A) (pre : Size) (k : nat) :
  shape x = pre ++ [2 * k] ->
  Torch.chunk_last x 2
    = Ok [Torch.narrow_last x 0 k; Torch.narrow_last x k k].
Proof.
  intros Hshape. unfold Torch.chunk_last.
  rewrite Hshape, last_dim. cbn [Nat.eqb].
  assert (Hsplit : (2 * k + 2 - 1) / 2 = k).
  { symmetry. apply (Nat.div_unique _ 2 k 1); lia. }
  rewrite Hsplit.
  destruct k as [| k']; [reflexivity |].
  set (k := S k') in *.
  assert (Hnum : (2 * k + k - 1) / k = 2).
  { symmetry. apply (Nat.div_unique _ k 2 (k - 1)); lia. }
  rewrite Hnum.
  replace (2 * k =? 0) with false by (symmetry; apply Nat.eqb_neq; lia).
  rewrite andb_false_r.
  cbn [Nat.max seq map Nat.sub Nat.ltb Nat.leb].
  replace (k - (k * 2 - 2 * k)) with k by lia.
  replace (0 * k) with 0 by lia.
  replace (1 * k) with k by lia.
  reflexivity.
Qed.

(** An odd last dimension of at least 3 is cut into a longer and a
    shorter piece. *)
Lemma chunk_odd (x : tensor A) (pre : Size) (k : nat) :
  shape x = pre ++ [2 * k + 1] ->
  1 <= k ->
  Torch.chunk_last x 2
    = Ok [Torch.narrow_last x 0 (k + 1); Torch.narrow_last x (k + 1) k].
Proof.
  intros Hshape Hk. unfold Torch.chunk_last.
  rewrite Hshape, last_dim. cbn [Nat.eqb].
  assert (Hsplit : (2 * k + 1 + 2 - 1) / 2 = k + 1).
  { symmetry. apply (Nat.div_unique _ 2 (k + 1) 0); lia. }
  rewrite Hsplit.
  assert (Hnum : (2 * k + 1 + (k + 1) - 1) / (k + 1) = 2).
  { symmetry. apply (Nat.div_unique _ (k + 1) 2 (k - 1)); lia. }
  rewrite Hnum.
  replace (k + 1 =? 0) with false by (symmetry; apply Nat.eqb_neq; lia).
  cbn [andb Nat.max seq map Nat.sub Nat.ltb Nat.leb].
  replace (k + 1 - ((k + 1) * 2 - (2 * k + 1))) with k by lia.
  replace (0 * (k + 1)) with 0 by lia.
  replace (1 * (k + 1)) with (k + 1) by lia.
  reflexivity.
Qed.

(** A last dimension of size 1 comes back as a single piece. *)
Lemma chunk_one (x : tensor A) (pre : Size) :
  shape x = pre ++ [1] ->
  Torch.chunk_last x 2 = Ok [Torch.narrow_last x 0 1].
Proof.
  intros Hshape. unfold Torch.chunk_last.
  rewrite Hshape, last_dim. reflexivity.
Qed.

Lemma narrow_last_shape (x : tensor A) (pre : Size) (n start len : nat) :
  shape x = pre ++ [n] ->
  shape (Torch.narrow_last x start len) = pre ++ [len].
Proof.
  intros Hshape. simpl. rewrite Hshape, removelast_last. reflexivity.
Qed.

End ChunkFacts.

(** ** [NormalParamExtractor] *)

Section Extractor.
Context {A : Type} `{Scalar A}.

Lemma forward_even (self : @NormalParamExtractor.t A) (x : tensor A)
  (others : list (tensor A)) (pre : Size) (k : nat) :
  shape x = pre ++ [2 * k] ->
  NormalParamExtractor.forward self (x :: others)
    = Ok (Torch.narrow_last x 0 k
            :: Torch.clamp_min
                 (tmap (NormalParamExtractor.scale_mapping self)
                    (Torch.narrow_last x k k))
                 (NormalParamExtractor.scale_lb self)
            :: others).
Proof.
  intros Hshape. unfold NormalParamExtractor.forward.
  cbn [unpack_head bind].
  rewrite (chunk_even x pre k Hshape). reflexivity.
Qed.

Lemma forward_odd (self : @NormalParamExtractor.t A) (x : tensor A)
  (others : list (tensor A)) (pre : Size) (k : nat) :
  shape x = pre ++ [2 * k + 1] ->
  1 <= k ->
  NormalParamExtractor.forward self (x :: others)
    = Ok (Torch.narrow_last x 0 (k + 1)
            :: Torch.clamp_min
                 (tmap (NormalParamExtractor.scale_mapping self)
                    (Torch.narrow_last x (k + 1) k))
                 (NormalParamExtractor.scale_lb self)
            :: others).
Proof.
  intros Hshape Hk. unfold NormalParamExtractor.forward.
  cbn [unpack_head bind].
  rewrite (chunk_odd x pre k Hshape Hk). reflexivity.
Qed.

Lemma forward_one (self : @NormalParamExtractor.t A) (x : tensor A)
  (others : list (tensor A)) (pre : Size) :
  shape x = pre ++ [1] ->
  NormalParamExtractor.forward self (x :: others)
    = Err (ValueError "not enough values to unpack (expected 2, got 1)").
Proof.
  intros Hshape. unfold NormalParamExtractor.forward.
  cbn [unpack_head bind].
  rewrite (chunk_one x pre Hshape). reflexivity.
Qed.

End Extractor.

(** C2 (as the code has it): an odd last dimension is not rejected.  With
    [2k + 1 >= 3] entries [forward] returns a [loc] of [k + 1] entries and
    a [scale] of [k] entries along the last axis; with a single entry
    [chunk] gives one piece and unpacking it into [loc, scale] raises a
    [ValueError] that does not mention the shape, and nothing is
    returned. *)
Theorem C2_odd_last_dimension (A : Type) `{Scalar A}
  (self : @NormalParamExtractor.t A) (x : tensor A)
  (others : list (tensor A)) (pre : Size) (k : nat) :
  shape x = pre ++ [2 * k + 1] ->
  (1 <= k ->
   exists loc scale,
     NormalParamExtractor.forward self (x :: others)
       = Ok (loc :: scale :: others) /\
     shape loc = pre ++ [k + 1] /\
     shape scale = pre ++ [k]) /\
  (k = 0 ->
   NormalParamExtractor.forward self (x :: others)
     = Err (ValueError "not enough values to unpack (expected 2, got 1)")).
Proof.
  intros Hshape. split.
  - intros Hk. rewrite (forward_odd self x others pre k Hshape Hk).
    eexists. eexists. split; [reflexivity |]. split.
    + apply (narrow_last_shape x pre _ _ _ Hshape).
    + apply (narrow_last_shape x pre _ _ _ Hshape).
  - intros ->. apply (forward_one self x others pre Hshape).
Qed.

Lemma C2_witness :
  (exists loc scale,
      NormalParamExtractor.forward
        (NormalParamExtractor.Build Registry.expm Examples.lower_bound)
        [Examples.mat23] = Ok [loc; scale] /\
      shape loc = [2; 2] /\ shape scale = [2; 1]) /\
  NormalParamExtractor.forward
    (NormalParamExtractor.Build Registry.expm Examples.lower_bound)
    [full [4; 1] (XReal.Fin 0)]
    = Err (ValueError "not enough values to unpack (expected 2, got 1)").
Proof.
  split.
  - apply (C2_odd_last_dimension _
             (NormalParamExtractor.Build Registry.expm Examples.lower_bound)
             Examples.mat23 [] [2] 1); [reflexivity | lia].
  - apply (C2_odd_last_dimension _
             (NormalParamExtractor.Build Registry.expm Examples.lower_bound)
             (full [4; 1] (XReal.Fin 0)) [] [4] 0); reflexivity.
Defined.

(** C2 as stated fails: a tensor of shape [(3,)] has an odd last
    dimension and [forward] returns a result for it. *)
Lemma C2_counterexample :
  shape Examples.vec3 = [3] /\
  exists loc scale,
    NormalParamExtractor.forward
      (NormalParamExtractor.Build Registry.expm Examples.lower_bound)
      [Examples.vec3] = Ok [loc; scale] /\
    shape loc = [2] /\ shape scale = [1].
Proof.
  split; [reflexivity |].
  eexists. eexists. split; [reflexivity |]. split; reflexivity.
Qed.

(** C3: for an input whose last dimension has even size [2k] and a
    mapping the registry knows, [forward] returns [(loc, scale, *others)]
    where [loc] is the first half of the input along the last axis and
    [scale] is the mapping of the second half clamped below by
    [scale_lb]; both have the input's shape with [k] as last dimension,
    and for a finite input every entry of [scale] is at least
    [scale_lb]. *)
Theorem C3_even_last_dimension (A : Type) `{Scalar A} {L : ScalarLaws A}
  (mappings : string -> result (A -> A)) (key : string) (f : A -> A)
  (scale_lb : A) (x : tensor A) (others : list (tensor A)) (pre : Size)
  (k : nat) :
  mappings key = Ok f ->
  shape x = pre ++ [2 * k] ->
  exists self loc scale,
    NormalParamExtractor.__init__ mappings (Some key) scale_lb = Ok self /\
    NormalParamExtractor.forward self (x :: others)
      = Ok (loc :: scale :: others) /\
    shape loc = pre ++ [k] /\
    shape scale = pre ++ [k] /\
    (forall idx j,
        get loc (idx ++ [j]) = get x (idx ++ [j]) /\
        get scale (idx ++ [j])
          = sclamp_min (f (get x (idx ++ [k + j]))) scale_lb) /\
    ((forall a, is_finite a = true -> is_nan (f a) = false) ->
     is_nan scale_lb = false ->
     (forall idx, in_range idx (shape x) -> is_finite (get x idx) = true) ->
     forall idx,
       in_range idx (shape scale) -> sle scale_lb (get scale idx) = true).
Proof.
  intros Hkey Hshape.
  exists (NormalParamExtractor.Build f scale_lb).
  rewrite (forward_even _ x others pre k Hshape).
  eexists. eexists.
  split; [unfold NormalParamExtractor.__init__; rewrite Hkey; reflexivity |].
  split; [reflexivity |].
  split; [apply (narrow_last_shape x pre _ _ _ Hshape) |].
  split; [apply (narrow_last_shape x pre _ _ _ Hshape) |].
  split.
  - intros idx j. simpl. rewrite !map_last_snoc. split; reflexivity.
  - intros Hf Hlb Hfinite idx Hidx.
    assert (Hs : shape (Torch.narrow_last x k k) = pre ++ [k])
      by apply (narrow_last_shape x pre _ _ _ Hshape).
    simpl in Hidx. change (removelast (shape x) ++ [k])
      with (shape (Torch.narrow_last x k k)) in Hidx.
    rewrite Hs in Hidx.
    destruct (in_range_snoc_inv idx pre k Hidx) as (idx' & j & -> & Hpre & Hj).
    simpl. rewrite map_last_snoc.
    apply clamp_min_lower; [| exact Hlb].
    apply Hf, Hfinite. rewrite Hshape.
    apply in_range_app; [exact Hpre |].
    constructor; [lia | constructor].
Qed.

Lemma C3_witness :
  exists self loc scale,
    NormalParamExtractor.__init__ (Registry.mappings Registry.tiny)
      (Some "exp") Examples.lower_bound = Ok self /\
    NormalParamExtractor.forward self [Examples.row4] = Ok [loc; scale] /\
    shape loc = [1; 2] /\
    shape scale = [1; 2] /\
    get loc [0; 1] = XReal.Fin 2 /\
    get scale [0; 1]
      = XReal.clamp (Registry.expm (XReal.Fin 4)) Examples.lower_bound /\
    XReal.le Examples.lower_bound (get scale [0; 1]) = true.
Proof.
  destruct (C3_even_last_dimension _
              (Registry.mappings Registry.tiny) "exp" Registry.expm
              Examples.lower_bound Examples.row4 [] [1] 2
              eq_refl eq_refl)
    as (self & loc & scale & Hinit & Hfwd & Hloc & Hscale & Hget & Hge).
  exists self, loc, scale.
  split; [exact Hinit |]. split; [exact Hfwd |].
  split; [exact Hloc |]. split; [exact Hscale |].
  split; [exact (proj1 (Hget [0] 1)) |].
  split; [exact (proj2 (Hget [0] 1)) |].
  apply Hge.
  - apply (registry_finite Registry.tiny "exp"). reflexivity.
  - reflexivity.
  - intros idx Hidx.
    apply in_rangeb_spec in Hidx.
    destruct idx as [| [| i] [| [| [| [| [| j]]]] [| ? ?]]];
      try discriminate; reflexivity.
  - rewrite Hscale. apply in_rangeb_spec. reflexivity.
Defined.

(** * Further properties of the module *)

(** ** [AddStateIndependentNormalScale.forward] *)

Section ScaleForward.
Context {A : Type} `{Scalar A}.
Variable mappings : string -> result (A -> A).

(** Expanding a constant tensor gives a constant tensor. *)
Lemma expand_full (ss s : Size) (v : A) (r : tensor A) :
  Torch.expand (full ss v) s = Ok r ->
  shape r = s /\ forall idx, get r idx = v.
Proof.
  unfold Torch.expand.
  destruct (List.length s <? List.length (shape (full ss v)));
    [discriminate |].
  destruct (forallb _ _); [| discriminate].
  intros [= <-]. split; reflexivity.
Qed.

Lemma skipn_suffix (pre ss : Size) :
  skipn (List.length (pre ++ ss) - List.length ss) (pre ++ ss) = ss.
Proof.
  rewrite length_app.
  replace (List.length pre + List.length ss - List.length ss)
    with (List.length pre + 0) by lia.
  rewrite skipn_app, Nat.add_0_r, skipn_all.
  replace (List.length pre - List.length pre) with 0 by lia.
  reflexivity.
Qed.

(** A [loc] whose shape does not end in a non-empty scale shape is
    rejected before the registry is consulted. *)
Lemma forward_mismatch (m : @AddStateIndependentNormalScale.t A)
  (loc : tensor A) (others : list (tensor A)) :
  AddStateIndependentNormalScale.scale_shape m <> [] ->
  (forall pre,
      shape loc <> pre ++ AddStateIndependentNormalScale.scale_shape m) ->
  AddStateIndependentNormalScale.forward mappings m loc others
    = Err (RuntimeError
             (AddStateIndependentNormalScale.mismatch_message m loc)).
Proof.
  intros Hne Hnot. unfold AddStateIndependentNormalScale.forward.
  destruct (size_eqb _ _) eqn:Hcheck; [| reflexivity].
  apply size_eqb_eq in Hcheck.
  rewrite slice_from_neg in Hcheck
    by (destruct (AddStateIndependentNormalScale.scale_shape m);
        [contradiction | simpl; lia]).
  exfalso. apply (Hnot (firstn
    (List.length (shape loc)
       - List.length (AddStateIndependentNormalScale.scale_shape m))
    (shape loc))).
  etransitivity; [symmetry; apply firstn_skipn |].
  f_equal. symmetry. exact Hcheck.
Qed.

(** A module holding a constant scale accepts a [loc] whose shape ends in
    the scale shape, and returns that constant, mapped and clamped, at
    every index. *)
Lemma forward_constant_scale (m : @AddStateIndependentNormalScale.t A)
  (loc : tensor A) (others : list (tensor A)) (pre : Size) (f : A -> A)
  (v : A) :
  AddStateIndependentNormalScale.data_of
    (AddStateIndependentNormalScale.state_independent_scale m)
    = full (AddStateIndependentNormalScale.scale_shape m) v ->
  shape loc = pre ++ AddStateIndependentNormalScale.scale_shape m ->
  (AddStateIndependentNormalScale.scale_shape m = [] -> pre = []) ->
  mappings (AddStateIndependentNormalScale.scale_mapping m) = Ok f ->
  exists scale,
    AddStateIndependentNormalScale.forward mappings m loc others
      = Ok (loc :: scale :: others) /\
    shape scale = shape loc /\
    forall idx,
      get scale idx
        = sclamp_min (f v) (AddStateIndependentNormalScale.scale_lb m).
Proof.
  intros Hdata Hloc Hempty Hf.
  unfold AddStateIndependentNormalScale.forward.
  assert (Hslice :
    slice_from (shape loc)
      (- Z.of_nat
           (List.length (AddStateIndependentNormalScale.scale_shape m)))
    = AddStateIndependentNormalScale.scale_shape m).
  { destruct (AddStateIndependentNormalScale.scale_shape m) as [| d ss]
      eqn:Ess.
    - rewrite Hloc, (Hempty eq_refl). reflexivity.
    - rewrite slice_from_neg by (simpl; lia).
      rewrite Hloc. apply skipn_suffix. }
  rewrite Hslice, size_eqb_refl. cbn [negb].
  destruct (expand_suffix
              (AddStateIndependentNormalScale.data_of
                 (AddStateIndependentNormalScale.state_independent_scale m))
              (shape loc)) as (r & Hr & Hshape).
  { rewrite Hdata. cbn [shape full]. rewrite Hloc. apply skipn_suffix. }
  unfold Torch.expand_as. rewrite Hr. cbn [bind]. rewrite Hf. cbn [bind].
  rewrite Hdata in Hr. apply expand_full in Hr. destruct Hr as [_ Hval].
  eexists. split; [reflexivity |]. split; [exact Hshape |].
  intros idx. simpl. rewrite Hval. reflexivity.
Qed.

End ScaleForward.

(** X1: a module built with a non-empty [scale_shape] rejects, with the
    shape-mismatch error, every [loc] whose shape does not end in
    [scale_shape], whatever the mapping name; when the shape does end in
    it and the registry knows the name, [forward] returns
    [(loc, scale, *others)] where [scale] has the shape of [loc] and
    holds the same number, the mapped and clamped initial value, at every
    index. *)
Theorem X1_scale_follows_trailing_dims (A : Type) `{Scalar A}
  (mappings : string -> result (A -> A))
  (arg : AddStateIndependentNormalScale.shape_arg)
  (scale_mapping : option string) (scale_lb init_value : A)
  (make_param : bool) (loc : tensor A) (others : list (tensor A)) :
  let ss :=
    match arg with
    | AddStateIndependentNormalScale.an_int n => [n]
    | AddStateIndependentNormalScale.a_tuple s => s
    end in
  let key := match scale_mapping with None => "exp" | Some s => s end in
  ss <> [] ->
  exists m,
    AddStateIndependentNormalScale.__init__ (Some arg) scale_mapping
      scale_lb make_param init_value = Ok m /\
    ((forall pre, shape loc <> pre ++ ss) ->
     AddStateIndependentNormalScale.forward mappings m loc others
       = Err (RuntimeError
                (AddStateIndependentNormalScale.mismatch_message m loc))) /\
    (forall pre f,
        shape loc = pre ++ ss ->
        mappings key = Ok f ->
        exists scale,
          AddStateIndependentNormalScale.forward mappings m loc others
            = Ok (loc :: scale :: others) /\
          shape scale = shape loc /\
          forall idx, get scale idx = sclamp_min (f init_value) scale_lb).
Proof.
  intros ss key Hne.
  destruct (init_state (Some arg) scale_mapping scale_lb make_param
              init_value) as (m & Hinit & Hkey & Hss & Hlb & Hdata).
  fold ss in Hss. fold key in Hkey.
  exists m. split; [exact Hinit |]. split.
  - intros Hnot. apply forward_mismatch; rewrite Hss; assumption.
  - intros pre f Hloc Hf.
    destruct (forward_constant_scale mappings m loc others pre f init_value)
      as (scale & Hfwd & Hshape & Hval).
    + exact Hdata.
    + rewrite Hss. exact Hloc.
    + rewrite Hss. intros Habs. contradiction.
    + rewrite Hkey. exact Hf.
    + exists scale. rewrite Hlb in Hval. repeat split; assumption.
Qed.

Lemma X1_witness :
  exists m,
    AddStateIndependentNormalScale.__init__
      (Some (AddStateIndependentNormalScale.an_int 3)) None
      Examples.lower_bound true (XReal.Fin 0) = Ok m /\
    AddStateIndependentNormalScale.forward (Registry.mappings Registry.tiny)
      m Examples.mat22 []
      = Err (RuntimeError
               (AddStateIndependentNormalScale.mismatch_message m
                  Examples.mat22)) /\
    exists scale,
      AddStateIndependentNormalScale.forward
        (Registry.mappings Registry.tiny) m Examples.mat23 []
        = Ok [Examples.mat23; scale] /\
      shape scale = [2; 3] /\
      get scale [1; 2]
        = XReal.clamp (Registry.expm (XReal.Fin 0)) Examples.lower_bound.
Proof.
  destruct (X1_scale_follows_trailing_dims _
              (Registry.mappings Registry.tiny)
              (AddStateIndependentNormalScale.an_int 3) None
              Examples.lower_bound (XReal.Fin 0) true Examples.mat22 [])
    as (m & Hinit & Hreject & _); [discriminate |].
  destruct (X1_scale_follows_trailing_dims _
              (Registry.mappings Registry.tiny)
              (AddStateIndependentNormalScale.an_int 3) None
              Examples.lower_bound (XReal.Fin 0) true Examples.mat23 [])
    as (m' & Hinit' & _ & Haccept); [discriminate |].
  assert (Hm : m' = m) by congruence. subst m'.
  exists m. split; [exact Hinit |]. split.
  - apply Hreject. intros [| a [| b [| c pre]]]; discriminate.
  - destruct (Haccept [2] Registry.expm eq_refl eq_refl)
      as (scale & Hfwd & Hshape & Hval).
    exists scale. split; [exact Hfwd |]. split; [exact Hshape |].
    apply Hval.
Defined.

(** X2: a module built with the default [scale_shape] and a mapping name
    the registry knows returns a result exactly for a 0-dimensional
    [loc]; the scale is then 0-dimensional too and holds the mapped and
    clamped initial value. *)
Theorem X2_default_scale_shape_scalar_loc (A : Type) `{Scalar A}
  (mappings : string -> result (A -> A)) (scale_mapping : option string)
  (f : A -> A) (scale_lb init_value : A) (make_param : bool)
  (loc : tensor A) (others : list (tensor A)) :
  mappings (match scale_mapping with None => "exp" | Some s => s end)
    = Ok f ->
  exists m,
    AddStateIndependentNormalScale.__init__ None scale_mapping scale_lb
      make_param init_value = Ok m /\
    (is_ok (AddStateIndependentNormalScale.forward mappings m loc others)
       = true <-> shape loc = []) /\
    (shape loc = [] ->
     exists scale,
       AddStateIndependentNormalScale.forward mappings m loc others
         = Ok (loc :: scale :: others) /\
       shape scale = [] /\
       get scale [] = sclamp_min (f init_value) scale_lb).
Proof.
  intros Hf.
  destruct (init_state None scale_mapping scale_lb make_param init_value)
    as (m & Hinit & Hkey & Hss & Hlb & Hdata).
  assert (Hok : shape loc = [] ->
          exists scale,
            AddStateIndependentNormalScale.forward mappings m loc others
              = Ok (loc :: scale :: others) /\
            shape scale = [] /\
            get scale [] = sclamp_min (f init_value) scale_lb).
  { intros Hloc.
    destruct (forward_constant_scale mappings m loc others [] f init_value)
      as (scale & Hfwd & Hshape & Hval).
    - exact Hdata.
    - rewrite Hss. exact Hloc.
    - reflexivity.
    - rewrite Hkey. exact Hf.
    - exists scale. rewrite Hlb in Hval. rewrite Hloc in Hshape.
      split; [exact Hfwd |]. split; [exact Hshape | apply Hval]. }
  exists m. split; [exact Hinit |]. split; [split |].
  - intros Hrun. destruct (shape loc) as [| d s] eqn:Hshape;
      [reflexivity |].
    rewrite (forward_empty_scale_shape mappings m loc others Hss) in Hrun.
    + discriminate.
    + rewrite Hshape. discriminate.
  - intros Hloc. destruct (Hok Hloc) as (scale & -> & _). reflexivity.
  - exact Hok.
Qed.

Lemma X2_witness :
  exists m,
    AddStateIndependentNormalScale.__init__ None None Examples.lower_bound
      true (XReal.Fin 0) = Ok m /\
    exists scale,
      AddStateIndependentNormalScale.forward
        (Registry.mappings Registry.tiny) m (full [] (XReal.Fin 5)) []
        = Ok [full [] (XReal.Fin 5); scale] /\
      shape scale = [].
Proof.
  destruct (X2_default_scale_shape_scalar_loc _
              (Registry.mappings Registry.tiny) None Registry.expm
              Examples.lower_bound (XReal.Fin 0) true
              (full [] (XReal.Fin 5)) [] eq_refl)
    as (m & Hinit & _ & Hok).
  exists m. split; [exact Hinit |].
  destruct (Hok eq_refl) as (scale & Hfwd & Hshape & _).
  exists scale. split; assumption.
Defined.

(** ** Tensors passed through *)

(** X3: the extra tensors given to [forward] are appended to the result
    unchanged and have no influence on [loc], on [scale] or on the error
    raised, for both modules. *)
Theorem X3_others_pass_through (A : Type) `{Scalar A}
  (mappings : string -> result (A -> A))
  (m : @AddStateIndependentNormalScale.t A)
  (self : @NormalParamExtractor.t A) (x : tensor A)
  (others : list (tensor A)) :
  AddStateIndependentNormalScale.forward mappings m x others
    = match AddStateIndependentNormalScale.forward mappings m x [] with
      | Ok l => Ok (l ++ others)
      | Err e => Err e
      end /\
  NormalParamExtractor.forward self (x :: others)
    = match NormalParamExtractor.forward self [x] with
      | Ok l => Ok (l ++ others)
      | Err e => Err e
      end.
Proof.
  split.
  - unfold AddStateIndependentNormalScale.forward.
    destruct (negb _); [reflexivity |].
    destruct (Torch.expand_as _ _) as [scale | e]; [| reflexivity].
    cbn [bind].
    destruct (mappings _) as [f | e]; reflexivity.
  - unfold NormalParamExtractor.forward. cbn [unpack_head bind].
    destruct (Torch.chunk_last x 2) as [chunks | e]; [| reflexivity].
    cbn [bind].
    destruct (unpack2 chunks) as [[loc scale] | e]; reflexivity.
Qed.

(** ** [NormalParamExtractor.forward] on any last dimension *)

Section ExtractorSplit.
Context {A : Type} `{Scalar A}.

Lemma half_even (k : nat) : 2 * k / 2 = k.
Proof. symmetry. apply (Nat.div_unique _ 2 k 0); lia. Qed.

Lemma half_odd (k : nat) : (2 * k + 1) / 2 = k.
Proof. symmetry. apply (Nat.div_unique _ 2 k 1); lia. Qed.

(** Unless the last dimension has size 1, [chunk(2, -1)] gives two
    pieces, of sizes [n - n / 2] and [n / 2]. *)
Lemma chunk_two (x : tensor A) (pre : Size) (n : nat) :
  shape x = pre ++ [n] ->
  n <> 1 ->
  Torch.chunk_last x 2
    = Ok [Torch.narrow_last x 0 (n - n / 2);
          Torch.narrow_last x (n - n / 2) (n / 2)].
Proof.
  intros Hshape Hn.
  destruct (Nat.Even_or_Odd n) as [[k Hk] | [k Hk]]; subst n.
  - rewrite (chunk_even x pre k Hshape), half_even.
    replace (2 * k - k) with k by lia. reflexivity.
  - assert (Hk : 1 <= k) by lia.
    rewrite (chunk_odd x pre k Hshape Hk), half_odd.
    replace (2 * k + 1 - k) with (k + 1) by lia. reflexivity.
Qed.

Lemma forward_two (self : @NormalParamExtractor.t A) (x : tensor A)
  (others : list (tensor A)) (pre : Size) (n : nat) :
  shape x = pre ++ [n] ->
  n <> 1 ->
  NormalParamExtractor.forward self (x :: others)
    = Ok (Torch.narrow_last x 0 (n - n / 2)
            :: Torch.clamp_min
                 (tmap (NormalParamExtractor.scale_mapping self)
                    (Torch.narrow_last x (n - n / 2) (n / 2)))
                 (NormalParamExtractor.scale_lb self)
            :: others).
Proof.
  intros Hshape Hn. unfold NormalParamExtractor.forward.
  cbn [unpack_head bind].
  rewrite (chunk_two x pre n Hshape Hn). reflexivity.
Qed.

Lemma forward_zero_dim (self : @NormalParamExtractor.t A) (x : tensor A)
  (others : list (tensor A)) :
  shape x = [] ->
  NormalParamExtractor.forward self (x :: others)
    = Err (RuntimeError "chunk expects at least a 1-dimensional tensor").
Proof.
  intros Hshape. unfold NormalParamExtractor.forward, Torch.chunk_last.
  cbn [unpack_head bind]. rewrite Hshape. reflexivity.
Qed.

(** The shape of a tensor is empty or ends in a last dimension. *)
Lemma shape_cases (s : Size) : s = [] \/ exists pre n, s = pre ++ [n].
Proof.
  destruct s as [| d s]; [left; reflexivity | right].
  destruct (exists_last (l := d :: s)) as (pre & n & Hs); [discriminate |].
  exists pre, n. exact Hs.
Qed.

End ExtractorSplit.

(** X4: [forward] returns a result exactly when it is given at least one
    tensor and the first one has a last dimension whose size is not 1;
    it raises on no tensor, on a 0-dimensional tensor and on a last
    dimension of size 1. *)
Theorem X4_extractor_succeeds_iff (A : Type) `{Scalar A}
  (self : @NormalParamExtractor.t A) (tensors : list (tensor A)) :
  is_ok (NormalParamExtractor.forward self tensors) = true <->
  exists x others pre n,
    tensors = x :: others /\ shape x = pre ++ [n] /\ n <> 1.
Proof.
  split.
  - destruct tensors as [| x others]; [discriminate |].
    intros Hrun.
    destruct (shape_cases (shape x)) as [Hs | (pre & n & Hs)].
    + rewrite (forward_zero_dim self x others Hs) in Hrun. discriminate.
    + exists x, others, pre, n. split; [reflexivity |].
      split; [exact Hs |]. intros ->.
      rewrite (forward_one self x others pre Hs) in Hrun. discriminate.
  - intros (x & others & pre & n & -> & Hs & Hn).
    rewrite (forward_two self x others pre n Hs Hn). reflexivity.
Qed.

(** X5: for a last dimension of size [n] other than 1, [loc] takes the
    first [n - n / 2] entries along the last axis and [scale] is computed
    from the remaining [n / 2] entries, in order: the two pieces cover
    the input exactly once, and [loc] is longer than [scale] by one entry
    when [n] is odd. *)
Theorem X5_extractor_splits_last_axis (A : Type) `{Scalar A}
  (self : @NormalParamExtractor.t A) (x : tensor A)
  (others : list (tensor A)) (pre : Size) (n : nat) :
  shape x = pre ++ [n] ->
  n <> 1 ->
  exists loc scale,
    NormalParamExtractor.forward self (x :: others)
      = Ok (loc :: scale :: others) /\
    shape loc = pre ++ [n - n / 2] /\
    shape scale = pre ++ [n / 2] /\
    (n - n / 2) + n / 2 = n /\
    n - n / 2 = n / 2 + n mod 2 /\
    (forall idx j, get loc (idx ++ [j]) = get x (idx ++ [j])) /\
    (forall idx j,
        get scale (idx ++ [j])
          = sclamp_min
              (NormalParamExtractor.scale_mapping self
                 (get x (idx ++ [(n - n / 2) + j])))
              (NormalParamExtractor.scale_lb self)).
Proof.
  intros Hs Hn.
  rewrite (forward_two self x others pre n Hs Hn).
  eexists. eexists. split; [reflexivity |].
  split; [apply (narrow_last_shape x pre n _ _ Hs) |].
  split; [apply (narrow_last_shape x pre n _ _ Hs) |].
  pose proof (Nat.div_mod_eq n 2) as Hdiv.
  assert (Hmod : n mod 2 < 2) by (apply Nat.mod_upper_bound; lia).
  split; [lia |]. split; [lia |].
  split; intros idx j; simpl; rewrite map_last_snoc; reflexivity.
Qed.

Lemma X5_witness :
  exists loc scale,
    NormalParamExtractor.forward
      (NormalParamExtractor.Build Registry.expm Examples.lower_bound)
      [Examples.mat23] = Ok [loc; scale] /\
    shape loc = [2; 2] /\
    shape scale = [2; 1] /\
    get loc [1; 1] = XReal.Fin 5 /\
    get scale [1; 0]
      = XReal.clamp (Registry.expm (XReal.Fin 6)) Examples.lower_bound.
Proof.
  destruct (X5_extractor_splits_last_axis _
              (NormalParamExtractor.Build Registry.expm Examples.lower_bound)
              Examples.mat23 [] [2] 3 eq_refl)
    as (loc & scale & Hfwd & Hloc & Hscale & _ & _ & Hl & Hsc);
    [discriminate |].
  exists loc, scale.
  split; [exact Hfwd |]. split; [exact Hloc |]. split; [exact Hscale |].
  split; [exact (Hl [1] 1) | exact (Hsc [1] 0)].
Defined.

(** X6: whatever the parity of the last dimension, when [forward] returns
    [(loc, scale, ...)] for a finite input, a lower bound that is a number
    and a mapping that sends finite numbers to numbers, every entry of
    [scale] is at least [scale_lb]. *)
Theorem X6_scale_lower_bound (A : Type) `{Scalar A} {L : ScalarLaws A}
  (self : @NormalParamExtractor.t A) (x loc scale : tensor A)
  (others rest : list (tensor A)) :
  NormalParamExtractor.forward self (x :: others)
    = Ok (loc :: scale :: rest) ->
  (forall a,
      is_finite a = true ->
      is_nan (NormalParamExtractor.scale_mapping self a) = false) ->
  is_nan (NormalParamExtractor.scale_lb self) = false ->
  (forall idx, in_range idx (shape x) -> is_finite (get x idx) = true) ->
  forall idx,
    in_range idx (shape scale) ->
    sle (NormalParamExtractor.scale_lb self) (get scale idx) = true.
Proof.
  intros Hfwd Hf Hlb Hfinite idx Hidx.
  destruct (shape_cases (shape x)) as [Hs | (pre & n & Hs)].
  { rewrite (forward_zero_dim self x others Hs) in Hfwd. discriminate. }
  destruct (Nat.eq_dec n 1) as [-> | Hn].
  { rewrite (forward_one self x others pre Hs) in Hfwd. discriminate. }
  rewrite (forward_two self x others pre n Hs Hn) in Hfwd.
  injection Hfwd as _ <- _.
  assert (Hshape :
    shape (Torch.narrow_last x (n - n / 2) (n / 2)) = pre ++ [n / 2])
    by apply (narrow_last_shape x pre n _ _ Hs).
  change (shape (Torch.clamp_min _ _))
    with (shape (Torch.narrow_last x (n - n / 2) (n / 2))) in Hidx.
  rewrite Hshape in Hidx.
  destruct (in_range_snoc_inv idx pre (n / 2) Hidx)
    as (idx' & j & -> & Hpre & Hj).
  unfold Torch.clamp_min, tmap, Torch.narrow_last. cbn [get].
  rewrite map_last_snoc.
  apply clamp_min_lower; [| exact Hlb].
  apply Hf, Hfinite. rewrite Hs.
  apply in_range_app; [exact Hpre |].
  pose proof (Nat.div_mod_eq n 2) as Hdiv.
  assert (Hmod : n mod 2 < 2) by (apply Nat.mod_upper_bound; lia).
  constructor; [| constructor].
  change (fst (Nat.divmod n 1 0 1)) with (n / 2). lia.
Qed.

Lemma X6_witness :
  exists loc scale,
    NormalParamExtractor.forward
      (NormalParamExtractor.Build Registry.expm Examples.lower_bound)
      [Examples.vec3] = Ok [loc; scale] /\
    XReal.le Examples.lower_bound (get scale [0]) = true.
Proof.
  pose proof (forward_two
                (NormalParamExtractor.Build Registry.expm
                   Examples.lower_bound)
                Examples.vec3 [] [] 3 eq_refl ltac:(discriminate)) as Hfwd.
  eexists. eexists. split; [exact Hfwd |].
  refine (X6_scale_lower_bound _
            (NormalParamExtractor.Build Registry.expm Examples.lower_bound)
            Examples.vec3 _ _ [] [] Hfwd _ _ _ [0] _).
  - apply (registry_finite Registry.tiny "exp"). reflexivity.
  - reflexivity.
  - intros idx Hidx. apply in_rangeb_spec in Hidx.
    destruct idx as [| [| [| [| i]]] [| ? ?]]; try discriminate;
      reflexivity.
  - apply in_rangeb_spec. reflexivity.
Defined.

(** ** [Delta.log_prob] *)

Lemma forallb_ext_in {T : Type} (f g : T -> bool) (l : list T) :
  (forall x, In x l -> f x = g x) -> forallb f l = forallb g l.
Proof.
  induction l as [| x l IH]; intros Hext; [reflexivity |].
  cbn [forallb]. rewrite (Hext x (or_introl eq_refl)), IH; [reflexivity |].
  intros y Hy. apply Hext. right. exact Hy.
Qed.

Lemma forallb_combine_Forall2 (l1 l2 : list nat) :
  List.length l1 = List.length l2 ->
  forallb (fun ds : nat * nat => (fst ds =? snd ds) || (fst ds =? 1))
    (combine l1 l2) = true ->
  Forall2 (fun d s => d = s \/ d = 1) l1 l2.
Proof.
  revert l2. induction l1 as [| d l1 IH]; intros [| s l2] Hlen Hall;
    try discriminate; [constructor |].
  cbn [combine forallb fst snd] in Hall.
  apply andb_true_iff in Hall. destruct Hall as [Hhead Htail].
  constructor.
  - apply orb_true_iff in Hhead.
    destruct Hhead as [Hd | Hd]; apply Nat.eqb_eq in Hd; [left | right];
      exact Hd.
  - apply IH; [simpl in Hlen; lia | exact Htail].
Qed.

Section LogProbFacts.
Context {A : Type} `{Scalar A}.

(** A distribution built without shapes from a parameter of shape
    [pre ++ [m]] has batch shape [pre] and event shape [[m]]. *)
Lemma init_default (p : tensor A) (atol rtol : A) (pre : Size) (m : nat) :
  shape p = pre ++ [m] ->
  Delta.__init__ p atol rtol None None
    = Delta.Build p atol rtol pre [m].
Proof.
  intros Hp.
  rewrite (init_derives p atol rtol None None) by reflexivity.
  rewrite Hp, removelast_last, <- slice_from_minus_one, slice_from_snoc.
  reflexivity.
Qed.

(** [log_prob] of a distribution with a one-dimensional event shape, on
    a value whose shape is the parameter's shape behind leading
    dimensions: each row of the value is compared with the row of the
    parameter at the same trailing index. *)
Lemma log_prob_rows (self : @Delta.t A) (value : tensor A) (n : nat)
  (lead pre : Size) (m : nat) :
  Delta.event_shape self = [n] ->
  shape (Delta.param self) = pre ++ [m] ->
  shape value = lead ++ pre ++ [m] ->
  exists out,
    Delta.log_prob self value = Ok out /\
    shape out = lead ++ pre /\
    forall i_lead idx,
      List.length i_lead = List.length lead ->
      in_range idx pre ->
      get out (i_lead ++ idx)
        = if forallb
               (fun j =>
                  close (Delta.atol self) (Delta.rtol self)
                    (get value (i_lead ++ idx ++ [j]))
                    (get (Delta.param self) (idx ++ [j])))
               (seq 0 m)
          then pinf else ninf.
Proof.
  intros Hev Hp Hvalue.
  destruct (expand_leading (Delta.param self) lead)
    as (param & Hexp & _ & Hparam).
  assert (Hexpand : Torch.expand_as (Delta.param self) value = Ok param).
  { unfold Torch.expand_as. rewrite Hvalue, <- Hp. exact Hexp. }
  rewrite app_assoc in Hvalue.
  destruct (is_equal_event_rank_one self value param n (lead ++ pre) m
              Hev Hvalue Hexpand) as (r & Hr & Hshape & Hget).
  destruct (log_prob_fills self value r Hr) as (out & Hout & Hso & Hgo).
  exists out. split; [exact Hout |]. split; [congruence |].
  intros i_lead idx Hlen Hidx.
  rewrite Hgo, Hget.
  2: { rewrite !length_app, Hlen, (in_range_length idx pre Hidx).
       reflexivity. }
  rewrite (forallb_ext_in
             (fun j => get (close_to self value param)
                         ((i_lead ++ idx) ++ [j]))
             (fun j => close (Delta.atol self) (Delta.rtol self)
                         (get value (i_lead ++ idx ++ [j]))
                         (get (Delta.param self) (idx ++ [j]))));
    [reflexivity |].
  intros j Hj. apply in_seq in Hj.
  rewrite <- app_assoc.
  unfold close_to, Torch.lt, Torch.abs, Torch.sub, Torch.radd, Torch.rmul,
    tzip, tmap, close. cbn [get].
  rewrite Hparam; [reflexivity | exact Hlen |].
  rewrite Hp. apply in_range_app; [exact Hidx |].
  constructor; [lia | constructor].
Qed.

End LogProbFacts.

(** X7: every entry of a tensor returned by [log_prob] is [+inf] or
    [-inf]; none is finite. *)
Theorem X7_log_prob_only_infinite (A : Type) `{Scalar A} {L : ScalarLaws A}
  (self : @Delta.t A) (value out : tensor A) :
  Delta.log_prob self value = Ok out ->
  forall idx,
    (get out idx = pinf \/ get out idx = ninf) /\
    is_finite (get out idx) = false.
Proof.
  intros Hout idx. split.
  - exact (log_prob_infinite self value out Hout idx).
  - exact (log_prob_never_finite self value out Hout idx).
Qed.

Lemma X7_witness :
  exists out,
    Delta.log_prob
      (Delta.__init__ Examples.mat23 Examples.tol Examples.tol None None)
      Examples.mat23 = Ok out /\
    XReal.isfinite (get out [1]) = false.
Proof.
  eexists. split; [reflexivity |].
  refine (proj2 (X7_log_prob_only_infinite _
                   (Delta.__init__ Examples.mat23 Examples.tol Examples.tol
                      None None)
                   Examples.mat23 _ eq_refl [1])).
Defined.

(** X8: with an event shape of one dimension, [log_prob] reduces the
    last dimension of the comparison and nothing else: for a value of
    shape [pre ++ [m]] to which the parameter expands, the result has
    shape [pre] and holds [+inf] where all [m] entries of the row are
    within tolerance and [-inf] elsewhere.  Only the number of event
    dimensions is used, not their sizes. *)
Theorem X8_log_prob_reduces_last_dim (A : Type) `{Scalar A}
  (self : @Delta.t A) (value param : tensor A) (n : nat) (pre : Size)
  (m : nat) :
  Delta.event_shape self = [n] ->
  shape value = pre ++ [m] ->
  Torch.expand_as (Delta.param self) value = Ok param ->
  exists out,
    Delta.log_prob self value = Ok out /\
    shape out = pre /\
    forall idx,
      List.length idx = List.length pre ->
      get out idx
        = if forallb
               (fun j =>
                  close (Delta.atol self) (Delta.rtol self)
                    (get value (idx ++ [j])) (get param (idx ++ [j])))
               (seq 0 m)
          then pinf else ninf.
Proof.
  intros Hev Hvalue Hexp.
  destruct (is_equal_event_rank_one self value param n pre m
              Hev Hvalue Hexp) as (r & Hr & Hshape & Hget).
  destruct (log_prob_fills self value r Hr) as (out & Hout & Hso & Hgo).
  exists out. split; [exact Hout |]. split; [congruence |].
  intros idx Hlen. rewrite Hgo, (Hget idx Hlen). reflexivity.
Qed.

Lemma X8_witness :
  exists out,
    Delta.log_prob
      (Delta.__init__ Examples.mat23 Examples.tol Examples.tol
         (Some [2]) (Some [7]))
      Examples.mat23 = Ok out /\
    shape out = [2].
Proof.
  destruct (X8_log_prob_reduces_last_dim _
              (Delta.__init__ Examples.mat23 Examples.tol Examples.tol
                 (Some [2]) (Some [7]))
              Examples.mat23 _ 7 [2] 3 eq_refl eq_refl eq_refl)
    as (out & Hout & Hshape & _).
  exists out. split; assumption.
Defined.

(** X9: for a distribution built from a parameter of at least one
    dimension without explicit shapes, [log_prob] accepts a value whose
    shape is the parameter's shape behind any leading dimensions; the
    result has those leading dimensions followed by the batch shape, and
    at each index it holds [+inf] when every entry of that row of the
    value is within tolerance of the parameter's entry, [-inf]
    otherwise. *)
Theorem X9_default_delta_compares_rows (A : Type) `{Scalar A}
  (p value : tensor A) (atol rtol : A) (lead pre : Size) (m : nat) :
  shape p = pre ++ [m] ->
  shape value = lead ++ shape p ->
  let d := Delta.__init__ p atol rtol None None in
  exists out,
    Delta.log_prob d value = Ok out /\
    shape out = lead ++ Delta.batch_shape d /\
    forall i_lead idx,
      List.length i_lead = List.length lead ->
      in_range idx (Delta.batch_shape d) ->
      get out (i_lead ++ idx)
        = if forallb
               (fun j =>
                  close atol rtol (get value (i_lead ++ idx ++ [j]))
                    (get p (idx ++ [j])))
               (seq 0 m)
          then pinf else ninf.
Proof.
  intros Hp Hvalue d. subst d.
  rewrite (init_default p atol rtol pre m Hp).
  rewrite Hp in Hvalue.
  exact (log_prob_rows (Delta.Build p atol rtol pre [m]) value m lead pre m
           eq_refl Hp Hvalue).
Qed.

Lemma X9_witness :
  exists out,
    Delta.log_prob
      (Delta.__init__ Examples.vec3 Examples.tol Examples.tol None None)
      Examples.mat23 = Ok out /\
    shape out = [2].
Proof.
  destruct (X9_default_delta_compares_rows _ Examples.vec3 Examples.mat23
              Examples.tol Examples.tol [2] [] 3 eq_refl eq_refl)
    as (out & Hout & Hshape & _).
  exists out. split; assumption.
Defined.

(** X10: [log_prob] returns a result only when the parameter can be
    expanded to the value: the value has at least as many dimensions as
    the parameter, and each dimension of the parameter is 1 or equals the
    dimension of the value it is aligned with from the right. *)
Theorem X10_log_prob_needs_expandable_param (A : Type) `{Scalar A}
  (self : @Delta.t A) (value : tensor A) :
  is_ok (Delta.log_prob self value) = true ->
  List.length (shape (Delta.param self)) <= List.length (shape value) /\
  Forall2 (fun d s => d = s \/ d = 1)
    (shape (Delta.param self))
    (skipn (List.length (shape value)
              - List.length (shape (Delta.param self)))
       (shape value)).
Proof.
  unfold Delta.log_prob, Delta._is_equal, Torch.expand_as, Torch.expand.
  destruct (Nat.ltb_spec (List.length (shape value))
              (List.length (shape (Delta.param self)))) as [Hlt | Hge];
    [discriminate |].
  destruct (forallb _ _) eqn:Hall; [| discriminate].
  intros _. split; [exact Hge |].
  apply forallb_combine_Forall2; [| exact Hall].
  rewrite length_skipn. lia.
Qed.

Lemma X10_witness :
  is_ok (Delta.log_prob
           (Delta.__init__ Examples.vec3 Examples.tol Examples.tol
              None None)
           Examples.mat23) = true /\
  Forall2 (fun d s => d = s \/ d = 1) (shape Examples.vec3) [3].
Proof.
  split; [reflexivity |].
  exact (proj2 (X10_log_prob_needs_expandable_param _
                  (Delta.__init__ Examples.vec3 Examples.tol Examples.tol
                     None None)
                  Examples.mat23 eq_refl)).
Defined.

(** ** [Delta] over the extended reals *)

(** A number is within tolerance of itself exactly when it is finite:
    the difference of an infinity with itself is NaN. *)
Lemma xreal_close_self (a r : R) (x : XReal.xreal) :
  (0 < a)%R -> (0 <= r)%R ->
  close (XReal.Fin a) (XReal.Fin r) x x = XReal.isfinite x.
Proof.
  intros Ha Hr. destruct x as [| | x |]; try reflexivity.
  unfold close. cbn. unfold XReal.Rltb.
  destruct (Rlt_dec _ _) as [_ | Hn]; [reflexivity |].
  exfalso. apply Hn.
  replace (x + - x)%R with 0%R by lra. rewrite Rabs_R0.
  pose proof (Rabs_pos x) as Hx.
  pose proof (Rmult_le_pos r (Rabs x) Hr Hx). lra.
Qed.

(** X11: for a distribution built without shapes from a parameter of at
    least one dimension, with a positive [atol] and a non-negative
    [rtol], the log-probability of [sample(s)] is [+inf] at the rows of
    the parameter whose entries are all finite and [-inf] at the rows
    that hold an infinity or a NaN, for every sample shape [s]. *)
Theorem X11_log_prob_of_sample (p : tensor XReal.xreal) (a r : R)
  (s pre : Size) (m : nat) :
  (0 < a)%R -> (0 <= r)%R ->
  shape p = pre ++ [m] ->
  let d := Delta.__init__ p (XReal.Fin a) (XReal.Fin r) None None in
  exists t out,
    Delta.sample d (Some s) = Ok t /\
    Delta.log_prob d t = Ok out /\
    shape out = s ++ pre /\
    forall i_s idx,
      List.length i_s = List.length s ->
      in_range idx pre ->
      get out (i_s ++ idx)
        = if forallb (fun j => XReal.isfinite (get p (idx ++ [j])))
               (seq 0 m)
          then XReal.PInf else XReal.NInf.
Proof.
  intros Ha Hr Hp d. subst d.
  rewrite (init_default p (XReal.Fin a) (XReal.Fin r) pre m Hp).
  set (d := Delta.Build p (XReal.Fin a) (XReal.Fin r) pre [m]).
  destruct (sample_expands d (Some s)) as (t & Hs & _ & Hshape & Hget).
  change (Delta.param d) with p in Hshape, Hget.
  rewrite Hp in Hshape.
  destruct (log_prob_rows d t m s pre m eq_refl Hp Hshape)
    as (out & Hout & Hso & Hgo).
  exists t, out. split; [exact Hs |]. split; [exact Hout |].
  split; [exact Hso |].
  intros i_s idx Hlen Hidx.
  rewrite (Hgo i_s idx Hlen Hidx).
  rewrite (forallb_ext_in
             (fun j => close (Delta.atol d) (Delta.rtol d)
                         (get t (i_s ++ idx ++ [j]))
                         (get (Delta.param d) (idx ++ [j])))
             (fun j => XReal.isfinite (get p (idx ++ [j]))));
    [reflexivity |].
  intros j Hj. apply in_seq in Hj.
  rewrite (Hget i_s (idx ++ [j]) Hlen).
  - apply xreal_close_self; assumption.
  - rewrite Hp. apply in_range_app; [exact Hidx |].
    constructor; [lia | constructor].
Qed.

Lemma X11_witness :
  exists t out,
    Delta.sample
      (Delta.__init__ Examples.mat23 (XReal.Fin 1) (XReal.Fin 0) None None)
      (Some [4]) = Ok t /\
    Delta.log_prob
      (Delta.__init__ Examples.mat23 (XReal.Fin 1) (XReal.Fin 0) None None)
      t = Ok out /\
    shape out = [4; 2] /\
    get out [3; 1] = XReal.PInf.
Proof.
  destruct (X11_log_prob_of_sample Examples.mat23 1 0 [4] [2] 3)
    as (t & out & Hs & Hout & Hshape & Hget).
  - lra.
  - lra.
  - reflexivity.
  - exists t, out. split; [exact Hs |]. split; [exact Hout |].
    split; [exact Hshape |].
    apply (Hget [3] [1]); [reflexivity |].
    apply in_rangeb_spec. reflexivity.
Defined.

(** ** [_logistic_deterministic_sample] *)

Lemma for_each_app {T X : Type} (body : T -> X -> result T)
  (xs ys : list X) (acc : T) :
  for_each body (xs ++ ys) acc
    = bind (for_each body xs acc) (for_each body ys).
Proof.
  revert acc. induction xs as [| x xs IH]; intros acc; [reflexivity |].
  cbn [app for_each]. destruct (body acc x) as [v | e]; [| reflexivity].
  cbn [bind]. apply IH.
Qed.

(** The chain over transforms that never raise is a left fold. *)
Lemma for_each_pure {T : Type} (fs : list (T -> T)) (acc : T) :
  for_each (fun s (transform : T -> result T) => transform s)
    (map (fun f s => Ok (f s)) fs) acc
    = Ok (fold_left (fun s f => f s) fs acc).
Proof.
  revert acc. induction fs as [| f fs IH]; intros acc; [reflexivity |].
  cbn [map for_each bind fold_left]. apply IH.
Qed.

(** X12: the deterministic sample of a transformed distribution applies
    the transforms to [loc] one after the other, in order.  With no
    transform it is [loc]; with a first transform [t] it is the sample of
    the remaining transforms started from [t(loc)], and the error of [t]
    when [t] raises, the remaining transforms not being applied; over a
    concatenated list it is the sample over the first part carried
    through the second; with transforms that never raise it is their left
    fold over [loc]; and [scale] plays no part. *)
Theorem X12_logistic_transforms_compose (A : Type)
  (loc scale scale' : tensor A)
  (t : tensor A -> result (tensor A))
  (ts ts1 ts2 : list (tensor A -> result (tensor A)))
  (fs : list (tensor A -> tensor A)) :
  LogisticNormal.deterministic_sample (LogisticNormal.Build loc scale [])
    = Ok loc /\
  LogisticNormal.deterministic_sample (LogisticNormal.Build loc scale [t])
    = t loc /\
  (forall s,
      t loc = Ok s ->
      LogisticNormal.deterministic_sample
        (LogisticNormal.Build loc scale (t :: ts))
        = LogisticNormal.deterministic_sample
            (LogisticNormal.Build s scale ts)) /\
  (forall e,
      t loc = Err e ->
      LogisticNormal.deterministic_sample
        (LogisticNormal.Build loc scale (t :: ts)) = Err e) /\
  LogisticNormal.deterministic_sample
    (LogisticNormal.Build loc scale (ts1 ++ ts2))
    = match LogisticNormal.deterministic_sample
              (LogisticNormal.Build loc scale ts1) with
      | Ok s =>
        LogisticNormal.deterministic_sample
          (LogisticNormal.Build s scale ts2)
      | Err e => Err e
      end /\
  LogisticNormal.deterministic_sample
    (LogisticNormal.Build loc scale (map (fun f s => Ok (f s)) fs))
    = Ok (fold_left (fun s f => f s) fs loc) /\
  LogisticNormal.deterministic_sample (LogisticNormal.Build loc scale' ts)
    = LogisticNormal.deterministic_sample
        (LogisticNormal.Build loc scale ts).
Proof.
  unfold LogisticNormal.deterministic_sample.
  cbn [LogisticNormal.transforms LogisticNormal.loc].
  split; [reflexivity |].
  split; [cbn [for_each]; destruct (t loc); reflexivity |].
  split; [intros s Hs; cbn [for_each]; rewrite Hs; reflexivity |].
  split; [intros e He; cbn [for_each]; rewrite He; reflexivity |].
  split; [rewrite for_each_app; reflexivity |].
  split; [apply for_each_pure | reflexivity].
Qed.

Lemma X12_witness :
  LogisticNormal.deterministic_sample
    (LogisticNormal.Build Examples.vec3 Examples.vec3
       [fun s => Ok (Torch.narrow_last s 1 2);
        fun _ => Err (ValueError "domain");
        fun s => Ok s])
    = Err (ValueError "domain") /\
  exists s,
    LogisticNormal.deterministic_sample
      (LogisticNormal.Build Examples.vec3 Examples.vec3
         [fun s => Ok (Torch.narrow_last s 1 2);
          fun s => Ok (Torch.narrow_last s 1 1)])
      = Ok s /\
    shape s = [1] /\ get s [0] = XReal.Fin 3.
Proof.
  split.
  - destruct (X12_logistic_transforms_compose XReal.xreal
                Examples.vec3 Examples.vec3 Examples.vec3
                (fun s => Ok (Torch.narrow_last s 1 2))
                [fun _ => Err (ValueError "domain"); fun s => Ok s]
                [] [] [])
      as (_ & _ & Hstep & _).
    rewrite (Hstep _ eq_refl).
    destruct (X12_logistic_transforms_compose XReal.xreal
                (Torch.narrow_last Examples.vec3 1 2)
                Examples.vec3 Examples.vec3
                (fun _ => Err (ValueError "domain"))
                [fun s => Ok s] [] [] [])
      as (_ & _ & _ & Hstop & _).
    exact (Hstop _ eq_refl).
  - destruct (X12_logistic_transforms_compose XReal.xreal
                Examples.vec3 Examples.vec3 Examples.vec3
                (fun s => Ok s) [] [] []
                [fun s => Torch.narrow_last s 1 2;
                 fun s => Torch.narrow_last s 1 1])
      as (_ & _ & _ & _ & _ & Hfold & _).
    eexists. split; [exact Hfold |]. split; reflexivity.
Defined.

(** ** The state-independent scale is bounded below *)

Section ScaleBound.
Context {A : Type} `{Scalar A}.
Variable mappings : string -> result (A -> A).

(** What a result of [forward] looks like when the module holds a
    constant scale. *)
Lemma forward_constant_inv (m : @AddStateIndependentNormalScale.t A)
  (loc loc' scale : tensor A) (others rest : list (tensor A)) (v : A) :
  AddStateIndependentNormalScale.data_of
    (AddStateIndependentNormalScale.state_independent_scale m)
    = full (AddStateIndependentNormalScale.scale_shape m) v ->
  AddStateIndependentNormalScale.forward mappings m loc others
    = Ok (loc' :: scale :: rest) ->
  exists f,
    mappings (AddStateIndependentNormalScale.scale_mapping m) = Ok f /\
    loc' = loc /\ rest = others /\ shape scale = shape loc /\
    forall idx,
      get scale idx
        = sclamp_min (f v) (AddStateIndependentNormalScale.scale_lb m).
Proof.
  intros Hdata. unfold AddStateIndependentNormalScale.forward.
  destruct (negb _); [discriminate |].
  unfold Torch.expand_as. rewrite Hdata.
  destruct (Torch.expand _ _) as [r | e] eqn:Hexp; [| discriminate].
  cbn [bind].
  destruct (mappings _) as [f | e]; [| discriminate].
  cbn [bind]. intros [= <- <- <-].
  apply expand_full in Hexp. destruct Hexp as [Hshape Hval].
  exists f. split; [reflexivity |]. split; [reflexivity |].
  split; [reflexivity |]. split; [exact Hshape |].
  intros idx. simpl. rewrite Hval. reflexivity.
Qed.

End ScaleBound.

(** X13: whenever a freshly built module returns a result, it is
    [(loc, scale, *others)] with [scale] of the shape of [loc], and every
    entry of [scale] is at least [scale_lb], provided [scale_lb] and the
    mapped initial value are numbers. *)
Theorem X13_state_independent_scale_bounded (A : Type) `{Scalar A}
  {L : ScalarLaws A} (mappings : string -> result (A -> A))
  (arg : option AddStateIndependentNormalScale.shape_arg)
  (scale_mapping : option string) (scale_lb init_value : A)
  (make_param : bool) (m : AddStateIndependentNormalScale.t)
  (loc loc' scale : tensor A) (others rest : list (tensor A)) :
  AddStateIndependentNormalScale.__init__ arg scale_mapping scale_lb
    make_param init_value = Ok m ->
  AddStateIndependentNormalScale.forward mappings m loc others
    = Ok (loc' :: scale :: rest) ->
  is_nan scale_lb = false ->
  (forall f,
      mappings (match scale_mapping with None => "exp" | Some s => s end)
        = Ok f ->
      is_nan (f init_value) = false) ->
  loc' = loc /\ rest = others /\ shape scale = shape loc /\
  forall idx, sle scale_lb (get scale idx) = true.
Proof.
  intros Hinit Hfwd Hlb Hf.
  destruct (init_state arg scale_mapping scale_lb make_param init_value)
    as (m0 & Hinit0 & Hkey & _ & Hslb & Hdata).
  assert (Hm : m0 = m) by congruence. subst m0.
  destruct (forward_constant_inv mappings m loc loc' scale others rest
              init_value Hdata Hfwd)
    as (f & Hmap & Hloc & Hrest & Hshape & Hval).
  split; [exact Hloc |]. split; [exact Hrest |]. split; [exact Hshape |].
  intros idx. rewrite Hval, Hslb.
  apply clamp_min_lower; [| exact Hlb].
  apply Hf. rewrite <- Hkey. exact Hmap.
Qed.

Lemma X13_witness :
  exists scale,
    shape scale = [2; 3] /\
    XReal.le Examples.lower_bound (get scale [0; 0]) = true.
Proof.
  assert (Hfwd :
    exists scale,
      AddStateIndependentNormalScale.forward
        (Registry.mappings Registry.tiny)
        (AddStateIndependentNormalScale.Build Examples.lower_bound [3] "exp"
           (AddStateIndependentNormalScale.as_parameter
              (full [3] (XReal.Fin 0))))
        Examples.mat23 [] = Ok [Examples.mat23; scale]).
  { eexists. reflexivity. }
  destruct Hfwd as (scale & Hfwd).
  exists scale.
  destruct (X13_state_independent_scale_bounded _
              (Registry.mappings Registry.tiny)
              (Some (AddStateIndependentNormalScale.an_int 3)) None
              Examples.lower_bound (XReal.Fin 0) true _
              Examples.mat23 Examples.mat23 scale [] [] eq_refl Hfwd
              eq_refl)
    as (_ & _ & Hshape & Hbound).
  - intros f [= <-]. reflexivity.
  - split; [exact Hshape | exact (Hbound [0; 0])].
Defined.

(** ** [Delta.log_prob] at other event ranks *)

(** X14: with an empty event shape nothing is reduced: for a value to
    which the parameter expands, [log_prob] has the shape of the value
    and holds [+inf] at the entries within tolerance of the expanded
    parameter, [-inf] at the others. *)
Theorem X14_log_prob_elementwise (A : Type) `{Scalar A}
  (self : @Delta.t A) (value param : tensor A) :
  Delta.event_shape self = [] ->
  Torch.expand_as (Delta.param self) value = Ok param ->
  exists out,
    Delta.log_prob self value = Ok out /\
    shape out = shape value /\
    forall idx,
      get out idx
        = if close (Delta.atol self) (Delta.rtol self)
               (get value idx) (get param idx)
          then pinf else ninf.
Proof.
  intros Hev Hexp.
  destruct (log_prob_fills self value (close_to self value param)
              (is_equal_event_rank_zero self value param Hev Hexp))
    as (out & Hout & Hshape & Hget).
  exists out. split; [exact Hout |]. split; [exact Hshape |].
  intros idx. rewrite Hget. reflexivity.
Qed.

Lemma X14_witness :
  exists out,
    Delta.log_prob
      (Delta.__init__ Examples.mat23 Examples.tol Examples.tol
         (Some [2; 3]) None)
      Examples.mat23 = Ok out /\
    shape out = [2; 3].
Proof.
  destruct (X14_log_prob_elementwise _
              (Delta.__init__ Examples.mat23 Examples.tol Examples.tol
                 (Some [2; 3]) None)
              Examples.mat23 _ eq_refl eq_refl)
    as (out & Hout & Hshape & _).
  exists out. split; assumption.
Defined.

(** X15: with an event shape of two dimensions the loop runs [all(-1)]
    and then [all(-2)] on the tensor left by the first step.  On a value
    of two dimensions the second step is out of range and [log_prob]
    raises [IndexError]; on a value of shape [(b, e1, e2)] the result has
    shape [(e1,)] and each entry is the conjunction of the test over the
    first and the last dimension. *)
Theorem X15_log_prob_two_event_dims (A : Type) `{Scalar A}
  (self : @Delta.t A) (value param : tensor A) (n1 n2 b e1 e2 : nat) :
  Delta.event_shape self = [n1; n2] ->
  Torch.expand_as (Delta.param self) value = Ok param ->
  (shape value = [e1; e2] ->
   Delta.log_prob self value
     = Err (IndexError "Dimension out of range")) /\
  (shape value = [b; e1; e2] ->
   exists out,
     Delta.log_prob self value = Ok out /\
     shape out = [e1] /\
     forall i,
       get out [i]
         = if forallb
                (fun k =>
                   forallb
                     (fun j =>
                        close (Delta.atol self) (Delta.rtol self)
                          (get value [k; i; j]) (get param [k; i; j]))
                     (seq 0 e2))
                (seq 0 b)
           then pinf else ninf).
Proof.
  intros Hev Hexp. split.
  - intros Hshape.
    destruct (all_dim_last (close_to self value param) [e1] e2 Hshape)
      as (r1 & Hr1 & Hs1 & _).
    unfold Delta.log_prob, Delta._is_equal. rewrite Hexp, Hev.
    cbn [bind List.length range_down seq map for_each].
    fold (close_to self value param).
    change (- Z.of_nat 1)%Z with (-1)%Z. rewrite Hr1. cbn [bind].
    unfold Torch.all_dim. rewrite Hs1. reflexivity.
  - intros Hshape.
    exact (log_prob_event_rank_two self value param n1 n2 b e1 e2
             Hev Hshape Hexp).
Qed.

Lemma X15_witness :
  Delta.log_prob
    (Delta.__init__ Examples.mat23 Examples.tol Examples.tol
       (Some []) (Some [2; 3]))
    Examples.mat23 = Err (IndexError "Dimension out of range").
Proof.
  exact (proj1 (X15_log_prob_two_event_dims _
                  (Delta.__init__ Examples.mat23 Examples.tol Examples.tol
                     (Some []) (Some [2; 3]))
                  Examples.mat23 _ 2 3 0 2 3 eq_refl eq_refl) eq_refl).
Defined.
